(** * ZK-DAP: the access gateway contract and the data-access circuit

    A shallow embedding of

    - [contracts/zkdap/ZKDataAccess.sol]: the resource registry and its
      [verifyAccess] entry point,
    - [circuits/src/data_access.circom]: the [DataAccess] template and the
      comparator it instantiates,
    - the parts of [scripts/deploy.js], [scripts/compile-circuit.js] and
      [scripts/interact.js] that fix the deployed state, the sample input and
      the public-signal vector handed to the contract,

    followed by the properties of the access flow. *)

From Stdlib Require Import ZArith NArith List Bool Lia.
From stdpp Require Import base option gmap strings.

Import ListNotations.
Local Open Scope string_scope.

(** ** Solidity values *)

(** [uint256]: an unsigned word.  The contract only stores, reads and compares
    such words, it never does arithmetic on them, so no wrap-around occurs. *)
Definition uint256 : Type := N.

Bind Scope N_scope with uint256.

(** [address] and [bytes]. *)
Definition address : Type := N.
Bind Scope N_scope with address.
Definition bytes : Type := list Byte.byte.

(** [uint256[2] memory]: a fixed-size array of exactly two words. *)
Record uint256_2 : Type := Array2 { at0 : uint256; at1 : uint256 }.
Arguments Array2 (at0 at1)%_N.

(** ** Outcome of a call: a returned value or a revert with its reason *)

Inductive result (A : Type) : Type :=
| Ok (a : A)
| Revert (reason : string).
Arguments Ok {A} a.
Arguments Revert {A} reason.

Definition bind {A B : Type} (r : result A) (k : A -> result B) : result B :=
  match r with
  | Ok a => k a
  | Revert reason => Revert reason
  end.

(** Solidity's [require(cond, reason)]. *)
Definition require (cond : bool) (reason : string) : result unit :=
  if cond then Ok tt else Revert reason.

Notation "'require!' c 'or' msg ; k" := (bind (require c msg) (fun _ => k))
  (at level 10, c at level 9, msg at level 9, k at level 200,
   format "'[v' 'require!'  c  'or'  msg ; '/' k ']'").

Definition is_granted (r : result (bool * string)) : bool :=
  match r with
  | Ok (true, _) => true
  | _ => false
  end.

Definition is_revert {A : Type} (r : result A) : bool :=
  match r with
  | Revert _ => true
  | Ok _ => false
  end.

(** ** The contract [ZKDataAccess] *)

Module ZKDataAccess.

(** Storage: the verifier's address and the two mappings.  A Solidity
    mapping reads as the zero value at every key never written, which
    [perm] and [data] below make explicit. *)
Record state : Type := State {
  verifierContract : address;
  resourcePermissions : gmap N uint256;
  resourceData : gmap N string
}.

Inductive event : Type :=
| ResourceRegistered (resourceId requiredPermission : uint256)
| AccessVerified (resourceId : uint256) (accessGranted : bool).

(** [resourcePermissions[resourceId]] *)
Definition perm (c : state) (resourceId : uint256) : uint256 :=
  default 0%N (resourcePermissions c !! resourceId).

(** [resourceData[resourceId]] *)
Definition data (c : state) (resourceId : uint256) : string :=
  default "" (resourceData c !! resourceId).

Definition constructor (_verifierContract : address) : state :=
  {| verifierContract := _verifierContract;
     resourcePermissions := ∅;
     resourceData := ∅ |}.

(** [registerResource]: writes both mappings, then emits the event. *)
Definition registerResource (c : state)
    (resourceId requiredPermission : uint256) (data : string)
  : state * list event :=
  ({| verifierContract := verifierContract c;
      resourcePermissions := <[resourceId := requiredPermission]> (resourcePermissions c);
      resourceData := <[resourceId := data]> (resourceData c) |},
   [ResourceRegistered resourceId requiredPermission]).

(** [verifyAccess], a [view] function.  The source binds
    [verificationResult] to the literal [true]; the verifier contract is
    not called and [proof] is not read. *)
Definition verifyAccess (c : state)
    (resourceId : uint256) (proof : bytes) (publicSignals : uint256_2)
  : result (bool * string) :=
  require! (0 <? perm c resourceId)%N or "Resource not registered";
  require! (at0 publicSignals =? perm c resourceId)%N or "Invalid required permission";
  require! (at1 publicSignals =? resourceId)%N or "Invalid resource ID";
  let verificationResult := true in
  if verificationResult
  then Ok (true, data c resourceId)
  else Ok (false, "").

(** [updateVerifier] *)
Definition updateVerifier (c : state) (_newVerifier : address) : state :=
  {| verifierContract := _newVerifier;
     resourcePermissions := resourcePermissions c;
     resourceData := resourceData c |}.



(** The state-changing entry points, as calls a transaction can make. *)
Inductive call : Type :=
| CallRegisterResource (resourceId requiredPermission : uint256) (data : string)
| CallUpdateVerifier (_newVerifier : address).

Definition step (c : state) (t : call) : state * list event :=
  match t with
  | CallRegisterResource resourceId requiredPermission data =>
      registerResource c resourceId requiredPermission data
  | CallUpdateVerifier _newVerifier => (updateVerifier c _newVerifier, [])
  end.

(** The state after a sequence of calls, in order. *)
Definition run (c : state) (calls : list call) : state :=
  fold_left (fun st t => fst (step st t)) calls c.

(** The resource ids a sequence of calls registers. *)
Definition registered (calls : list call) : list uint256 :=
  flat_map (fun t => match t with
                     | CallRegisterResource resourceId _ _ => [resourceId]
                     | CallUpdateVerifier _ => []
                     end) calls.

End ZKDataAccess.

(** ** The scalar field of the circuit *)

(** Circom signals are elements of the prime field fixed by the curve; the
    scripts select [bn128] ([snarkjs powersoftau new bn128 12]).  A signal is
    kept as its canonical representative in [0, p). *)
Module Field.

(** Modelled from the spec: the "field size" of the constraint system.  The
    constant is not written in the sources; it is the order of the scalar
    field of the curve [bn128] named in [compile-circuit.js]. *)
Definition p : Z :=
  21888242871839275222246405745257275088548364400416034343698204186575808495617%Z.

Definition of_Z (x : Z) : Z := (x mod p)%Z.
Definition add (a b : Z) : Z := ((a + b) mod p)%Z.
Definition sub (a b : Z) : Z := ((a - b) mod p)%Z.
Definition mul (a b : Z) : Z := ((a * b) mod p)%Z.
(** [1 << n] *)
Definition shl1 (n : nat) : Z := (Z.shiftl 1 (Z.of_nat n) mod p)%Z.

End Field.

(** ** The comparator instantiated by the circuit *)

(** [data_access.circom] obtains [GreaterEqThan] through
    [include "circomlib/circuits/comparators.circom"]; the library file is
    not among the repository's sources.  The spec describes the comparison as
    gates encoding [userPermission >= requiredPermission] "via bounded
    bit-decomposition (fixed width, e.g. 32 bits)", sound when both values
    fit the width.  The templates below are that encoding as the library
    writes it.  Each function computes the component's witness; [None] is a
    failed constraint or assertion. *)
Module Circomlib.

Local Open Scope Z_scope.

(** Modelled from the spec: the loop of the library template [Num2Bits(n)],
    the bit decomposition.  Per bit: [out[i] <-- (in >> i) & 1], the
    constraint [out[i] * (out[i] - 1) === 0], [lc1 += out[i] * e2] and
    [e2 = e2 + e2]. *)
Fixpoint Num2Bits_loop (steps : nat) (i : Z) (in_ lc1 e2 : Z)
  : option (list Z * Z) :=
  match steps with
  | O => Some ([], lc1)
  | S steps' =>
      let out_i := Z.land (Z.shiftr in_ i) 1 in
      if Field.mul out_i (Field.sub out_i 1) =? 0 then
        match Num2Bits_loop steps' (i + 1) in_
                (Field.add lc1 (Field.mul out_i e2)) (Field.add e2 e2) with
        | Some (out, lc) => Some (out_i :: out, lc)
        | None => None
        end
      else None
  end.

(** Modelled from the spec: the library template [Num2Bits(n)], the bounded
    bit decomposition: the loop from [lc1 = 0] and [e2 = 1], then the
    constraint [lc1 === in]. *)
Definition Num2Bits (n : nat) (in_ : Z) : option (list Z) :=
  match Num2Bits_loop n 0 in_ 0 1 with
  | Some (out, lc1) => if lc1 =? in_ then Some out else None
  | None => None
  end.

(** Modelled from the spec: the library template [LessThan(n)]:
    [assert(n <= 252)], [n2b = Num2Bits(n + 1)],
    [n2b.in <== in[0] + (1 << n) - in[1]], [out <== 1 - n2b.out[n]]. *)
Definition LessThan (n : nat) (in0 in1 : Z) : option Z :=
  if (252 <? n)%nat then None
  else
    match Num2Bits (n + 1) (Field.sub (Field.add in0 (Field.shl1 n)) in1) with
    | Some out => Some (Field.sub 1 (nth n out 0))
    | None => None
    end.

(** Modelled from the spec: the library template [GreaterEqThan(n)], the
    comparator [DataAccess] instantiates at width 32: [lt = LessThan(n)],
    [lt.in[0] <== in[1]], [lt.in[1] <== in[0] + 1], [lt.out ==> out]. *)
Definition GreaterEqThan (n : nat) (in0 in1 : Z) : option Z :=
  LessThan n in1 (Field.add in0 1).

End Circomlib.

(** ** The circuit [data_access.circom] *)

Module Circuit.

Local Open Scope Z_scope.

(** The signals of [DataAccess], in declaration order. *)
Record witness : Type := Witness {
  userPermission : Z;
  requiredPermission : Z;
  resourceId : Z;
  accessGranted : Z;
  resourceIdCheck : Z
}.

(** Witness generation for [template DataAccess()].  The three inputs enter
    as field elements, an input value being taken modulo [Field.p]; they are
    wired to the comparator as they are, and [resourceId] is only copied into
    [resourceIdCheck]. *)
Definition DataAccess (userPermission requiredPermission resourceId : Z)
  : option witness :=
  let userPermission := Field.of_Z userPermission in
  let requiredPermission := Field.of_Z requiredPermission in
  let resourceId := Field.of_Z resourceId in
  match Circomlib.GreaterEqThan 32 userPermission requiredPermission with
  | Some comparison_out =>
      Some {| userPermission := userPermission;
              requiredPermission := requiredPermission;
              resourceId := resourceId;
              accessGranted := comparison_out;
              resourceIdCheck := resourceId |}
  | None => None
  end.

(** [component main {public [requiredPermission, resourceId]}]: the public
    inputs of a witness, in the order the declaration lists them. *)
Definition public_inputs (w : witness) : list Z :=
  [requiredPermission w; resourceId w].

(** The width of the comparison, [GreaterEqThan(32)]. *)
Definition width : Z := 32.

Definition in_domain (x : Z) : Prop := 0 <= x < 2 ^ width.

End Circuit.

(** ** The scripts *)

Module Scripts.

Import ZKDataAccess.

(** [scripts/deploy.js]: deploy [ZKDataAccess] with the verifier's address,
    then register the sample resource. *)
Definition sampleData : string :=
  "This is sensitive data requiring permission level 5".

Definition deploy (verifier : address) : state * list event :=
  registerResource (constructor verifier) 67890 5 sampleData.

(** A sample session on a deployed contract: the verifier is replaced, then
    the sample resource is registered as [deploy.js] does. *)
Definition session : list call :=
  [CallUpdateVerifier 9; CallRegisterResource 67890 5 sampleData].

(** Two resources registered with the same requirement. *)
Definition twins : list call :=
  [CallRegisterResource 1 5 "a"; CallRegisterResource 2 5 "b"].

(** [scripts/compile-circuit.js], step 6: the sample input
    (userPermission, requiredPermission, resourceId). *)
Definition sampleInput : Z * Z * Z := (10, 5, 67890)%Z.

(** [scripts/interact.js]: the [publicSignals] array, built from the
    requirement read back from the contract and the resource id. *)
Definition publicSignals (c : state) (resourceId : uint256) : list uint256 :=
  let requiredPermission := perm c resourceId in
  [requiredPermission; resourceId].

End Scripts.

(** ** The access flow *)

Module Flow.

Import ZKDataAccess.

(** The two-word vector a caller of [verifyAccess] fills from witness [w]:
    the circuit's declared public inputs, [requiredPermission] then
    [resourceId], as contract words, in the positions the two signal guards
    read.  No source line builds it; [scripts/interact.js] fills the same
    positions from the contract's stored requirement and the resource id,
    and the prover's own public file also carries accessGranted. *)
Definition signals_of (w : Circuit.witness) : uint256_2 :=
  Array2 (Z.to_N (Circuit.requiredPermission w)) (Z.to_N (Circuit.resourceId w)).

(** Presenting a proof made from [w] against resource [requested]. *)
Definition present (c : state) (w : Circuit.witness) (proof : bytes)
    (requested : uint256) : result (bool * string) :=
  verifyAccess c requested proof (signals_of w).

(** End to end: generate the witness from the prover's input, then submit
    [proof] with the witness's public inputs for the resource named in the
    input.  [None] when no witness exists. *)
Definition access (c : state) (userPermission requiredPermission resourceId : Z)
    (proof : bytes) : option (Circuit.witness * result (bool * string)) :=
  match Circuit.DataAccess userPermission requiredPermission resourceId with
  | Some w => Some (w, present c w proof (Z.to_N resourceId))
  | None => None
  end.

End Flow.

(** ** The contract seen from outside *)

Module Registry.

Import ZKDataAccess.

(** The getters [public] generates for the three state variables;
    [scripts/interact.js] reads the requirement through the second. *)
Definition get_verifierContract (c : state) : address := verifierContract c.

Definition get_resourcePermissions (c : state) (resourceId : uint256) : uint256 :=
  perm c resourceId.

Definition get_resourceData (c : state) (resourceId : uint256) : string :=
  data c resourceId.

(** The events a sequence of calls emits, in order. *)
Fixpoint emitted (c : state) (calls : list call) : list event :=
  match calls with
  | [] => []
  | t :: calls' => snd (step c t) ++ emitted (fst (step c t)) calls'
  end.

(** The requirement and data of the last [registerResource] call for
    [resourceId] in a sequence of calls, if there is one. *)
Fixpoint last_registration (calls : list call) (resourceId : uint256)
  : option (uint256 * string) :=
  match calls with
  | [] => None
  | t :: calls' =>
      match last_registration calls' resourceId with
      | Some found => Some found
      | None =>
          match t with
          | CallRegisterResource rid rp d =>
              if decide (rid = resourceId) then Some (rp, d) else None
          | CallUpdateVerifier _ => None
          end
      end
  end.

(** The argument of the last [updateVerifier] call in a sequence, if any. *)
Fixpoint last_verifier (calls : list call) : option address :=
  match calls with
  | [] => None
  | t :: calls' =>
      match last_verifier calls' with
      | Some v => Some v
      | None =>
          match t with
          | CallUpdateVerifier v => Some v
          | CallRegisterResource _ _ _ => None
          end
      end
  end.

End Registry.

(** ** Reading a bit decomposition back *)

(** The number a list of bits stands for, lowest bit first: the sum
    [out[0] + 2 * out[1] + 4 * out[2] + ...] that [Num2Bits] constrains. *)
Fixpoint bits_value (out : list Z) : Z :=
  match out with
  | [] => 0
  | b :: out' => b + 2 * bits_value out'
  end%Z.

(** ** The command-line scripts *)

(** The scripts are straight-line sequences of operations on the file system
    and of child processes, grouped in [try] blocks.  An operation either
    returns or throws; which of the two is given by the environment.  A run
    is recorded as the operations attempted, in order, and the way the
    process ends. *)
Module Scripting.

(** [process.exit(code)], or an exception no [catch] handles. *)
Inductive ending : Type :=
| Exit (code : nat)
| Uncaught.

(** Attempt [o]: when it returns, go on with [k]; when it throws, the script
    ends as [on_throw] and nothing after [o] is attempted. *)
Definition attempt {item : Type} (returns : bool) (o : item) (on_throw : ending)
    (k : list item * ending) : list item * ending :=
  if returns then (o :: fst k, snd k) else ([o], on_throw).

(** Attempt [o] inside a [try] whose [catch] only reports: go on with [k]
    either way. *)
Definition attempt_soft {item : Type} (o : item) (k : list item * ending)
  : list item * ending :=
  (o :: fst k, snd k).

(** [console.log] of a message the run records. *)
Definition say {item : Type} (m : item) (k : list item * ending)
  : list item * ending :=
  (m :: fst k, snd k).

(** Going through a list of operations, each with the ending its throw
    leads to, until one throws. *)
Fixpoint run_plan {item : Type} (returns : item -> bool)
    (plan : list (item * ending)) : list item * ending :=
  match plan with
  | [] => ([], Exit 0)
  | (o, on_throw) :: plan' =>
      attempt (returns o) o on_throw (run_plan returns plan')
  end.

(** [s.startsWith(sub)]: the test [includes] makes at each position. *)
Fixpoint starts_with (sub s : string) : bool :=
  match sub, s with
  | EmptyString, _ => true
  | String _ _, EmptyString => false
  | String a sub', String b s' => Ascii.eqb a b && starts_with sub' s'
  end.

(** [s.includes(sub)]. *)
Fixpoint includes (s sub : string) : bool :=
  starts_with sub s
  || match s with
     | EmptyString => false
     | String _ s' => includes s' sub
     end.

End Scripting.

(** [scripts/compile-circuit.js] *)
Module CompileCircuit.

Import Scripting.

Inductive op : Type :=
| MkdirBuild              (* fs.mkdirSync(BUILD_DIR) *)
| CircomVersion           (* circom --version *)
| CircomCompile           (* circom data_access.circom --r1cs --wasm --sym *)
| MkdirPtauTemp           (* fs.mkdirSync(ptauTempDir) *)
| PtauNew                 (* snarkjs powersoftau new bn128 12 *)
| PtauContribute          (* snarkjs powersoftau contribute *)
| PtauPrepare             (* snarkjs powersoftau prepare phase2 *)
| RmPtauTemp              (* fs.rmSync(ptauTempDir) *)
| ZkeySetup               (* snarkjs groth16 setup *)
| ZkeyContribute          (* snarkjs zkey contribute *)
| ExportVerificationKey   (* snarkjs zkey export verificationkey *)
| ExportSolidityVerifier  (* snarkjs zkey export solidityverifier *)
| ReadVerifier            (* fs.readFileSync(verifierPath) *)
| WriteVerifier           (* fs.writeFileSync(verifierPath), pragma replaced *)
| WriteInput.             (* fs.writeFileSync(input.json) *)

Record env : Type := Env {
  build_dir_exists : bool;  (* fs.existsSync(BUILD_DIR) *)
  ptau_exists : bool;       (* fs.existsSync(PTAU_FILE) *)
  ptau_temp_exists : bool;  (* fs.existsSync(ptauTempDir) *)
  returns : op -> bool
}.

(** The script.  Every [catch] calls [process.exit(1)]; the first [mkdirSync]
    and the last [writeFileSync] stand outside any [try]. *)
Definition script (e : env) : list op * ending :=
  let guarded o k := attempt (returns e o) o (Exit 1) k in
  let bare o k := attempt (returns e o) o Uncaught k in
  (if build_dir_exists e then fun k => k else bare MkdirBuild)
  (* Step 1 *)
  (guarded CircomVersion
  (* Step 2 *)
  (guarded CircomCompile
  (* Step 3 *)
  ((if ptau_exists e then fun k => k
    else fun k =>
      (if ptau_temp_exists e then fun k' => k' else guarded MkdirPtauTemp)
      (guarded PtauNew
      (guarded PtauContribute
      (guarded PtauPrepare
      (guarded RmPtauTemp k)))))
  (* Step 4 *)
  (guarded ZkeySetup
  (guarded ZkeyContribute
  (guarded ExportVerificationKey
  (* Step 5 *)
  (guarded ExportSolidityVerifier
  (guarded ReadVerifier
  (guarded WriteVerifier
  (* Step 6 *)
  (bare WriteInput
  ([], Exit 0))))))))))).

(** The operations the script goes through when none throws, each with the
    ending its throw leads to. *)
Definition plan (e : env) : list (op * ending) :=
  ((if build_dir_exists e then [] else [(MkdirBuild, Uncaught)])
   ++ [(CircomVersion, Exit 1); (CircomCompile, Exit 1)]
   ++ (if ptau_exists e then []
       else (if ptau_temp_exists e then [] else [(MkdirPtauTemp, Exit 1)])
            ++ [(PtauNew, Exit 1); (PtauContribute, Exit 1);
                (PtauPrepare, Exit 1); (RmPtauTemp, Exit 1)])
   ++ [(ZkeySetup, Exit 1); (ZkeyContribute, Exit 1);
       (ExportVerificationKey, Exit 1); (ExportSolidityVerifier, Exit 1);
       (ReadVerifier, Exit 1); (WriteVerifier, Exit 1);
       (WriteInput, Uncaught)])%list.

End CompileCircuit.

(** The demo workflow script, [scripts/zkdap-demo.js]. *)
Module Demo.

Import Scripting.

Inductive op : Type :=
| RunCompile      (* node scripts/compile-circuit.js *)
| ReadInput       (* read and parse input.json, show the scenario *)
| WtnsCalculate   (* snarkjs wtns calculate *)
| Groth16Prove    (* snarkjs groth16 prove *)
| ShowProof       (* read and parse proof.json, show it truncated *)
| ShowPublic      (* read and parse public.json, show it *)
| Groth16Verify   (* snarkjs groth16 verify *)
| ExportCalldata  (* snarkjs zkey export soliditycalldata *)
| WriteCalldata   (* fs.writeFileSync(calldata.txt) *)
| WriteDeploy.    (* fs.writeFileSync(deploy.js) *)

(** What a run shows: the operations attempted and the verdict printed
    after the verification step. *)
Inductive item : Type :=
| Did (o : op)
| Verdict (valid : bool).

Record env : Type := Env {
  wasm_exists : bool;            (* fs.existsSync(WASM_FILE) *)
  deploy_exists : bool;          (* fs.existsSync(deploy.js) *)
  compile_env : CompileCircuit.env;
  verify_output : string;        (* what snarkjs groth16 verify prints *)
  returns_other : op -> bool
}.

(** [execSync] of the compile script throws unless that script exits
    with 0. *)
Definition returns (e : env) (o : op) : bool :=
  match o with
  | RunCompile =>
      match snd (CompileCircuit.script (compile_env e)) with
      | Exit 0 => true
      | _ => false
      end
  | _ => returns_other e o
  end.

(** The script.  The [catch] of steps 0 to 4 calls [process.exit(1)]; the
    [catch] of step 5 only reports; the script ends with
    [process.exit(0)]. *)
Definition script (e : env) : list item * ending :=
  let guarded o k := attempt (returns e o) (Did o) (Exit 1) k in
  (if wasm_exists e then fun k => k else guarded RunCompile)
  (guarded ReadInput
  (* Step 1 *)
  (guarded WtnsCalculate
  (* Step 2 *)
  (guarded Groth16Prove
  (guarded ShowProof
  (guarded ShowPublic
  (* Step 3 *)
  (guarded Groth16Verify
  (say (Verdict (includes (verify_output e) "OK"))
  (* Step 4 *)
  (guarded ExportCalldata
  (guarded WriteCalldata
  (* Step 5 *)
  ((if deploy_exists e then fun k => k else attempt_soft (Did WriteDeploy))
  ([], Exit 0))))))))))).

(** The operations steps 0 to 4 go through when none throws. *)
Definition critical (e : env) : list op :=
  ((if wasm_exists e then [] else [RunCompile])
   ++ [ReadInput; WtnsCalculate; Groth16Prove; ShowProof; ShowPublic;
       Groth16Verify; ExportCalldata; WriteCalldata])%list.

(** The items of a run in which nothing stops the script, each with the
    ending a throw at it leads to. *)
Definition plan (e : env) : list (item * ending) :=
  ((if wasm_exists e then [] else [(Did RunCompile, Exit 1)])
   ++ [(Did ReadInput, Exit 1); (Did WtnsCalculate, Exit 1);
       (Did Groth16Prove, Exit 1); (Did ShowProof, Exit 1);
       (Did ShowPublic, Exit 1); (Did Groth16Verify, Exit 1);
       (Verdict (includes (verify_output e) "OK"), Exit 1);
       (Did ExportCalldata, Exit 1); (Did WriteCalldata, Exit 1)]
   ++ (if deploy_exists e then [] else [(Did WriteDeploy, Exit 1)]))%list.

(** Whether the script goes on past an item: always past a message and past
    the write of step 5, past any other operation when it returns. *)
Definition goes_on (e : env) (i : item) : bool :=
  match i with
  | Did WriteDeploy => true
  | Did o => returns e o
  | Verdict _ => true
  end.

End Demo.

(** * Properties *)

(** ** The comparator *)

Section Comparator.
Local Open Scope Z_scope.

(** The field size lies between 2^253 and 2^254. *)
Lemma p_bounds : 2 ^ 253 < Field.p < 2 ^ 254.
Proof. unfold Field.p. split; reflexivity. Qed.

Lemma p_pos : 0 < Field.p.
Proof. reflexivity. Qed.

(** [(in >> i) & 1] is bit [i] of [in]. *)
Lemma bit_at (x i : Z) : 0 <= i -> Z.land (Z.shiftr x i) 1 = (x / 2 ^ i) mod 2.
Proof.
  intros Hi. rewrite Z.shiftr_div_pow2 by assumption.
  change 1 with (Z.ones 1). rewrite Z.land_ones by lia. reflexivity.
Qed.

(** A bit satisfies [out * (out - 1) === 0]. *)
Lemma bit_constraint (b : Z) : 0 <= b < 2 -> (Field.mul b (Field.sub b 1) =? 0) = true.
Proof.
  intros Hb. assert (b = 0 \/ b = 1) as [-> | ->] by lia; reflexivity.
Qed.

(** A slice of [k + 1] bits is its lowest bit plus twice the slice above. *)
Lemma slice_step (x i : Z) (k : nat) :
  0 <= i ->
  (x / 2 ^ i) mod 2 ^ Z.of_nat (S k)
  = (x / 2 ^ i) mod 2 + 2 * ((x / 2 ^ (i + 1)) mod 2 ^ Z.of_nat k).
Proof.
  intros Hi.
  rewrite Nat2Z.inj_succ, Z.pow_succ_r by lia.
  rewrite Z.pow_add_r, Z.pow_1_r by lia.
  rewrite <- Z.div_div by lia.
  set (y := x / 2 ^ i).
  assert (0 < 2 ^ Z.of_nat k) by (apply Z.pow_pos_nonneg; lia).
  rewrite Z.rem_mul_r by lia. reflexivity.
Qed.

(** The loop never fails; it accumulates the weighted sum of the bits it
    emits, and emits the bits of [in] from position [i] on. *)
Lemma Num2Bits_loop_spec (steps : nat) : forall (i x lc e2 : Z),
  0 <= i -> 0 <= lc < Field.p ->
  exists out,
    Circomlib.Num2Bits_loop steps i x lc e2
      = Some (out, (lc + e2 * ((x / 2 ^ i) mod 2 ^ Z.of_nat steps)) mod Field.p)
    /\ forall j, (j < steps)%nat -> nth j out 0 = (x / 2 ^ (i + Z.of_nat j)) mod 2.
Proof.
  induction steps as [| k IH]; intros i x lc e2 Hi Hlc.
  - exists []. split; [| intros j Hj; lia].
    simpl. rewrite Z.mod_1_r, Z.mul_0_r, Z.add_0_r, Z.mod_small by lia. reflexivity.
  - cbn [Circomlib.Num2Bits_loop].
    rewrite bit_at by assumption.
    set (b := (x / 2 ^ i) mod 2).
    assert (Hb : 0 <= b < 2) by (apply Z.mod_pos_bound; lia).
    rewrite bit_constraint by assumption.
    destruct (IH (i + 1) x (Field.add lc (Field.mul b e2)) (Field.add e2 e2))
      as (out & Hout & Hnth).
    { lia. }
    { unfold Field.add. apply Z.mod_pos_bound, p_pos. }
    rewrite Hout. exists (b :: out). split.
    + f_equal. f_equal.
      rewrite slice_step by assumption. fold b.
      unfold Field.add, Field.mul.
      set (r := (x / 2 ^ (i + 1)) mod 2 ^ Z.of_nat k).
      pose proof p_pos as Hp.
      rewrite Z.add_mod_idemp_l by lia.
      rewrite (Z.mod_eq (b * e2) Field.p), (Z.mod_eq (e2 + e2) Field.p) by lia.
      set (q1 := b * e2 / Field.p). set (q3 := (e2 + e2) / Field.p).
      replace (lc + (b * e2 - Field.p * q1) + (e2 + e2 - Field.p * q3) * r)
        with (lc + e2 * (b + 2 * r) + (- q1 - q3 * r) * Field.p) by ring.
      apply Z_mod_plus_full.
    + intros [| j] Hj.
      * simpl. rewrite Z.add_0_r. reflexivity.
      * simpl nth. rewrite Hnth by lia. do 3 f_equal. lia.
Qed.

(** [Num2Bits(n)] succeeds on a value below 2^n and returns its bits. *)
Lemma Num2Bits_fits (n : nat) (x : Z) :
  2 ^ Z.of_nat n <= Field.p -> 0 <= x < 2 ^ Z.of_nat n ->
  exists out, Circomlib.Num2Bits n x = Some out
    /\ forall j, (j < n)%nat -> nth j out 0 = (x / 2 ^ Z.of_nat j) mod 2.
Proof.
  intros Hn Hx. unfold Circomlib.Num2Bits.
  destruct (Num2Bits_loop_spec n 0 x 0 1) as (out & -> & Hnth);
    [lia | pose proof p_pos; lia |].
  exists out.
  rewrite Z.pow_0_r, Z.div_1_r, Z.add_0_l, Z.mul_1_l.
  rewrite (Z.mod_small x) by lia. rewrite Z.mod_small by lia.
  rewrite Z.eqb_refl. split; [reflexivity |].
  intros j Hj. rewrite Hnth by assumption. reflexivity.
Qed.

(** [Num2Bits(n)] fails on a value of 2^n or more: [lc1 === in] is violated. *)
Lemma Num2Bits_overflow (n : nat) (x : Z) :
  2 ^ Z.of_nat n <= Field.p -> 2 ^ Z.of_nat n <= x ->
  Circomlib.Num2Bits n x = None.
Proof.
  intros Hn Hx. unfold Circomlib.Num2Bits.
  destruct (Num2Bits_loop_spec n 0 x 0 1) as (out & -> & _);
    [lia | pose proof p_pos; lia |].
  rewrite Z.pow_0_r, Z.div_1_r, Z.add_0_l, Z.mul_1_l.
  assert (H2 : 0 < 2 ^ Z.of_nat n) by (apply Z.pow_pos_nonneg; lia).
  pose proof (Z.mod_pos_bound x (2 ^ Z.of_nat n) H2) as Hm.
  rewrite (Z.mod_small (x mod _)) by lia.
  destruct (Z.eqb_spec (x mod 2 ^ Z.of_nat n) x); [lia | reflexivity].
Qed.

(** The operand of the bit decomposition inside [LessThan(32)]. *)
Lemma LessThan_operand (a b : Z) :
  Field.sub (Field.add a (Field.shl1 32)) b = (a + 2 ^ 32 - b) mod Field.p.
Proof.
  unfold Field.sub, Field.add, Field.shl1.
  pose proof p_pos as Hp.
  change (Z.shiftl 1 (Z.of_nat 32) mod Field.p) with (2 ^ 32).
  rewrite Zminus_mod_idemp_l. reflexivity.
Qed.

(** [LessThan(32)] when its operand fits 33 bits: one minus bit 32. *)
Lemma LessThan_32_fits (a b : Z) :
  let d := (a + 2 ^ 32 - b) mod Field.p in
  d < 2 ^ 33 ->
  Circomlib.LessThan 32 a b = Some (1 - (d / 2 ^ 32) mod 2).
Proof.
  intros d Hd. unfold Circomlib.LessThan.
  change (252 <? 32)%nat with false. cbv iota.
  rewrite LessThan_operand. fold d.
  pose proof p_pos as Hp.
  assert (Hd0 : 0 <= d) by (apply Z.mod_pos_bound; lia).
  destruct (Num2Bits_fits (32 + 1) d) as (out & -> & Hnth).
  { vm_compute. discriminate. }
  { change (2 ^ Z.of_nat (32 + 1)) with (2 ^ 33). lia. }
  rewrite Hnth by lia. change (2 ^ Z.of_nat 32) with (2 ^ 32).
  f_equal. unfold Field.sub.
  assert (0 <= (d / 2 ^ 32) mod 2 < 2) by (apply Z.mod_pos_bound; lia).
  apply Z.mod_small. pose proof p_bounds. lia.
Qed.

(** [LessThan(32)] fails when its operand does not fit 33 bits. *)
Lemma LessThan_32_overflow (a b : Z) :
  2 ^ 33 <= (a + 2 ^ 32 - b) mod Field.p ->
  Circomlib.LessThan 32 a b = None.
Proof.
  intros Hd. unfold Circomlib.LessThan.
  change (252 <? 32)%nat with false. cbv iota.
  rewrite LessThan_operand.
  rewrite Num2Bits_overflow; [reflexivity | vm_compute; discriminate |].
  change (2 ^ Z.of_nat (32 + 1)) with (2 ^ 33). assumption.
Qed.

(** The operand [GreaterEqThan(32)] hands down for inputs [u] and [r]. *)
Lemma GreaterEqThan_operand (u r : Z) :
  (Field.of_Z r + 2 ^ 32 - Field.add (Field.of_Z u) 1) mod Field.p
  = (r + 2 ^ 32 - (u + 1)) mod Field.p.
Proof.
  unfold Field.of_Z, Field.add.
  rewrite Zplus_mod_idemp_l, Zminus_mod_idemp_r.
  rewrite <- Z.add_sub_assoc, Zplus_mod_idemp_l, Z.add_sub_assoc. reflexivity.
Qed.

End Comparator.

(** ** The circuit *)

Section CircuitFacts.
Local Open Scope Z_scope.

(** What witness generation does on every input: with
    [d = requiredPermission + 2^32 - (userPermission + 1)] taken in the
    field, generation fails when [d] needs more than 33 bits and otherwise
    sets [accessGranted] to the complement of bit 32 of [d]. *)
Lemma DataAccess_eval (u r id : Z) :
  let d := (r + 2 ^ 32 - (u + 1)) mod Field.p in
  Circuit.DataAccess u r id =
    if 2 ^ 33 <=? d then None
    else Some {| Circuit.userPermission := Field.of_Z u;
                 Circuit.requiredPermission := Field.of_Z r;
                 Circuit.resourceId := Field.of_Z id;
                 Circuit.accessGranted := if d <? 2 ^ 32 then 1 else 0;
                 Circuit.resourceIdCheck := Field.of_Z id |}.
Proof.
  intros d. unfold Circuit.DataAccess, Circomlib.GreaterEqThan.
  pose proof (GreaterEqThan_operand u r) as Hop. fold d in Hop.
  destruct (Z.leb_spec (2 ^ 33) d) as [Hbig | Hfit].
  - rewrite LessThan_32_overflow; [reflexivity | rewrite Hop; assumption].
  - rewrite LessThan_32_fits by (rewrite Hop; assumption).
    rewrite Hop. do 2 f_equal.
    assert (Hd0 : 0 <= d) by (apply Z.mod_pos_bound, p_pos).
    destruct (Z.ltb_spec d (2 ^ 32)) as [Hlo | Hhi].
    + rewrite Z.div_small by lia. reflexivity.
    + replace (d / 2 ^ 32) with 1; [reflexivity |].
      apply Z.div_unique with (r := d - 2 ^ 32); lia.
Qed.

(** Inside the 32-bit domain the circuit computes [userPermission >=
    requiredPermission], inclusively. *)
Lemma DataAccess_in_domain (u r id : Z) :
  Circuit.in_domain u -> Circuit.in_domain r ->
  Circuit.DataAccess u r id =
    Some {| Circuit.userPermission := u;
            Circuit.requiredPermission := r;
            Circuit.resourceId := Field.of_Z id;
            Circuit.accessGranted := if r <=? u then 1 else 0;
            Circuit.resourceIdCheck := Field.of_Z id |}.
Proof.
  unfold Circuit.in_domain, Circuit.width. intros Hu Hr.
  rewrite DataAccess_eval.
  pose proof p_bounds as Hp.
  assert (H32 : 2 ^ 32 = 4294967296) by reflexivity.
  assert (H33 : 2 ^ 33 = 8589934592) by reflexivity.
  assert (H253 : 2 ^ 253 > 2 ^ 33) by reflexivity.
  rewrite (Z.mod_small (r + 2 ^ 32 - (u + 1))) by lia.
  unfold Field.of_Z. rewrite (Z.mod_small u), (Z.mod_small r) by lia.
  destruct (Z.leb_spec (2 ^ 33) (r + 2 ^ 32 - (u + 1))); [lia |].
  destruct (Z.ltb_spec (r + 2 ^ 32 - (u + 1)) (2 ^ 32)),
           (Z.leb_spec r u); solve [reflexivity | lia].
Qed.

End CircuitFacts.

(** ** The contract *)

Section ContractFacts.
Import ZKDataAccess.

Lemma perm_registerResource (c : state) (rid rp : uint256) (d : string) (k : uint256) :
  perm (fst (registerResource c rid rp d)) k = if decide (rid = k) then rp else perm c k.
Proof.
  unfold perm, registerResource. cbn [fst resourcePermissions].
  rewrite lookup_insert. destruct (decide (rid = k)); reflexivity.
Qed.

Lemma data_registerResource (c : state) (rid rp : uint256) (d : string) (k : uint256) :
  data (fst (registerResource c rid rp d)) k = if decide (rid = k) then d else data c k.
Proof.
  unfold data, registerResource. cbn [fst resourceData].
  rewrite lookup_insert. destruct (decide (rid = k)); reflexivity.
Qed.

(** The three guards of [verifyAccess], in source order. *)
Lemma verifyAccess_eval (c : state) (rid : uint256) (proof : bytes) (sigs : uint256_2) :
  verifyAccess c rid proof sigs =
    if negb (0 <? perm c rid)%N then Revert "Resource not registered"
    else if negb (at0 sigs =? perm c rid)%N then Revert "Invalid required permission"
    else if negb (at1 sigs =? rid)%N then Revert "Invalid resource ID"
    else Ok (true, data c rid).
Proof.
  unfold verifyAccess, bind, require.
  destruct (0 <? perm c rid)%N; [| reflexivity].
  destruct (at0 sigs =? perm c rid)%N; [| reflexivity].
  destruct (at1 sigs =? rid)%N; reflexivity.
Qed.

(** A zero requirement fails the existence guard. *)
Lemma verifyAccess_unregistered
    (c : state) (rid : uint256) (proof : bytes) (sigs : uint256_2) :
  perm c rid = 0%N ->
  verifyAccess c rid proof sigs = Revert "Resource not registered".
Proof. intros H. rewrite verifyAccess_eval, H. reflexivity. Qed.

(** When [verifyAccess] grants, and with what payload. *)
Lemma verifyAccess_granted_iff (c : state) (rid : uint256) (proof : bytes)
    (sigs : uint256_2) (payload : string) :
  verifyAccess c rid proof sigs = Ok (true, payload)
  <-> (0 < perm c rid)%N /\ at0 sigs = perm c rid /\ at1 sigs = rid
      /\ payload = data c rid.
Proof.
  rewrite verifyAccess_eval.
  destruct (N.ltb_spec 0 (perm c rid)); cbn [negb];
    [| split; [discriminate | intros (? & _); lia]].
  destruct (N.eqb_spec (at0 sigs) (perm c rid)); cbn [negb];
    [| split; [discriminate | intros (_ & ? & _); contradiction]].
  destruct (N.eqb_spec (at1 sigs) rid); cbn [negb];
    [| split; [discriminate | intros (_ & _ & ? & _); contradiction]].
  split.
  - intros [= <-]. auto.
  - intros (_ & _ & _ & ->). reflexivity.
Qed.

(** [verifyAccess] has no denying return: it grants or reverts. *)
Lemma verifyAccess_never_denies (c : state) (rid : uint256) (proof : bytes)
    (sigs : uint256_2) (payload : string) :
  verifyAccess c rid proof sigs <> Ok (false, payload).
Proof.
  rewrite verifyAccess_eval.
  repeat match goal with |- context [if ?b then _ else _] => destruct b end;
    discriminate.
Qed.

Lemma perm_updateVerifier (c : state) (v : address) (k : uint256) :
  perm (updateVerifier c v) k = perm c k.
Proof. reflexivity. Qed.

(** Resources that no call in a sequence registers keep their requirement. *)
Lemma perm_run_other (calls : list call) :
  forall (c : state) (rid : uint256),
  ~ In rid (registered calls) ->
  perm (run c calls) rid = perm c rid.
Proof.
  induction calls as [| t calls IH]; intros c rid Hnot; [reflexivity |].
  unfold run in *. cbn [fold_left].
  unfold registered in *. cbn [flat_map] in Hnot.
  rewrite in_app_iff in Hnot.
  rewrite IH by tauto.
  destruct t as [r rp d | v]; cbn [step].
  - rewrite perm_registerResource.
    destruct (decide (r = rid)) as [-> | _]; [| reflexivity].
    exfalso. apply Hnot. left. left. reflexivity.
  - apply perm_updateVerifier.
Qed.

Lemma perm_constructor (verifier : address) (rid : uint256) :
  perm (constructor verifier) rid = 0%N.
Proof. reflexivity. Qed.

End ContractFacts.

(** ** The access gateway *)

Section Gateway.
Import ZKDataAccess.

(** The demo scenario: the sample input of [compile-circuit.js] against the
    resource registered by [deploy.js]. *)
Example demo_scenario (proof : bytes) :
  let '(userPermission, requiredPermission, resourceId) := Scripts.sampleInput in
  option_map (fun o => (Circuit.accessGranted (fst o), snd o))
    (Flow.access (fst (Scripts.deploy 7)) userPermission requiredPermission
       resourceId proof)
  = Some (1%Z, Ok (true, Scripts.sampleData)).
Proof. reflexivity. Qed.

Example deploy_emits :
  snd (Scripts.deploy 7) = [ResourceRegistered 67890 5].
Proof. reflexivity. Qed.

(** C1: access is to be granted only when the verifier accepts the proof and
    the circuit's accessGranted signal is 1, so that a prover whose private
    permission is below the threshold is denied.  The code does otherwise:
    on the deployed sample resource (threshold 5) a prover with permission 3
    obtains a witness whose accessGranted is 0, and [verifyAccess] still
    returns granted = true with the stored payload, for every byte string
    passed as the proof. *)
Theorem verifyAccess_grants_below_threshold (verifier : address) (proof : bytes) :
  option_map (fun o => (Circuit.accessGranted (fst o), snd o))
    (Flow.access (fst (Scripts.deploy verifier)) 3 5 67890 proof)
  = Some (0%Z, Ok (true, Scripts.sampleData)).
Proof.
  unfold Flow.access.
  rewrite DataAccess_in_domain by (unfold Circuit.in_domain, Circuit.width; lia).
  cbn [option_map fst snd Circuit.accessGranted].
  unfold Flow.present. rewrite verifyAccess_eval.
  reflexivity.
Qed.

(** C2: a proof made for resource A, hence carrying A's resourceId in its
    public signals, never opens a different resource B: [verifyAccess]
    reverts, and when B is registered with exactly the requirement the
    signals encode, the revert is the resource-id guard's. *)
Theorem replay_across_resources_rejected
    (c : state) (A B : uint256) (proof : bytes) (requiredPermission : uint256) :
  A <> B ->
  is_revert (verifyAccess c B proof (Array2 requiredPermission A)) = true
  /\ is_granted (verifyAccess c B proof (Array2 requiredPermission A)) = false
  /\ (perm c B = requiredPermission -> (0 < requiredPermission)%N ->
      verifyAccess c B proof (Array2 requiredPermission A)
      = Revert "Invalid resource ID").
Proof.
  intros Hne. rewrite verifyAccess_eval. cbn [at0 at1].
  apply N.eqb_neq in Hne. rewrite Hne. cbn [negb].
  repeat split.
  - repeat match goal with |- context [if ?b then _ else _] => destruct b end;
      reflexivity.
  - repeat match goal with |- context [if ?b then _ else _] => destruct b end;
      reflexivity.
  - intros -> Hpos.
    apply N.ltb_lt in Hpos. rewrite Hpos, N.eqb_refl. reflexivity.
Qed.

(** The replay theorem on two resources registered with the same
    requirement. *)
Lemma replay_across_resources_rejected_witness :
  (1 <> 2)%N
  /\ is_revert (verifyAccess (run (constructor 7) Scripts.twins) 2 []
                  (Array2 5 1)) = true
  /\ is_granted (verifyAccess (run (constructor 7) Scripts.twins) 2 []
                   (Array2 5 1)) = false
  /\ verifyAccess (run (constructor 7) Scripts.twins) 2 [] (Array2 5 1)
     = Revert "Invalid resource ID".
Proof.
  assert (Hne : (1 <> 2)%N) by discriminate.
  destruct (replay_across_resources_rejected
              (run (constructor 7) Scripts.twins) 1%N 2%N [] 5%N Hne)
    as (Hrev & Hden & Hreason).
  split; [exact Hne |]. split; [exact Hrev |]. split; [exact Hden |].
  apply Hreason; reflexivity.
Defined.




(** C4, as stated, fails: on the deployed sample resource a wrong
    requiredPermission and a wrong resourceId in the public signals each make
    [verifyAccess] revert; neither is reported as granted = false. *)
Lemma signal_mismatch_is_a_revert :
  verifyAccess (fst (Scripts.deploy 7)) 67890 [] (Array2 4 67890)
    = Revert "Invalid required permission"
  /\ verifyAccess (fst (Scripts.deploy 7)) 67890 [] (Array2 4 67890)
     <> Ok (false, "")
  /\ verifyAccess (fst (Scripts.deploy 7)) 67890 [] (Array2 5 12345)
     = Revert "Invalid resource ID"
  /\ verifyAccess (fst (Scripts.deploy 7)) 67890 [] (Array2 5 12345)
     <> Ok (false, "").
Proof. repeat split; discriminate. Qed.

(** C4, amended: on a resource whose stored requirement is greater than 0,
    public signals whose requiredPermission differs from the stored one, or
    whose resourceId differs from the requested one, are detected and
    reported as a revert,
    with reason "Invalid required permission" for the first guard and
    "Invalid resource ID" for the second; the outcome is never a returned
    granted = false, and it differs from the revert of an unregistered
    resource. *)
Theorem signal_mismatch_reverts
    (c : state) (rid : uint256) (proof : bytes) (sigs : uint256_2) :
  (0 < perm c rid)%N ->
  at0 sigs <> perm c rid \/ at1 sigs <> rid ->
  verifyAccess c rid proof sigs
  = Revert (if (at0 sigs =? perm c rid)%N
            then "Invalid resource ID"
            else "Invalid required permission")
  /\ verifyAccess c rid proof sigs <> Revert "Resource not registered"
  /\ forall payload, verifyAccess c rid proof sigs <> Ok (false, payload).
Proof.
  intros Hpos Hmis.
  assert (Heval : verifyAccess c rid proof sigs
                  = Revert (if (at0 sigs =? perm c rid)%N
                            then "Invalid resource ID"
                            else "Invalid required permission")).
  { rewrite verifyAccess_eval.
    apply N.ltb_lt in Hpos. rewrite Hpos. cbn [negb].
    destruct (N.eqb_spec (at0 sigs) (perm c rid)) as [H0 | H0]; cbn [negb];
      [| reflexivity].
    destruct (N.eqb_spec (at1 sigs) rid) as [H1 | H1]; cbn [negb];
      [tauto | reflexivity]. }
  split; [exact Heval |]. split.
  - rewrite Heval. destruct (at0 sigs =? perm c rid)%N; discriminate.
  - intros payload. apply verifyAccess_never_denies.
Qed.

(** The mismatch theorem on the deployed sample resource, with a wrong
    requiredPermission. *)
Lemma signal_mismatch_reverts_witness :
  (0 < perm (fst (Scripts.deploy 7)) 67890)%N
  /\ (at0 (Array2 4 67890) <> perm (fst (Scripts.deploy 7)) 67890
      \/ at1 (Array2 4 67890) <> 67890%N)
  /\ verifyAccess (fst (Scripts.deploy 7)) 67890 [] (Array2 4 67890)
     = Revert (if (at0 (Array2 4 67890) =? perm (fst (Scripts.deploy 7)) 67890)%N
               then "Invalid resource ID"
               else "Invalid required permission")
  /\ verifyAccess (fst (Scripts.deploy 7)) 67890 [] (Array2 4 67890)
     <> Revert "Resource not registered"
  /\ forall payload,
       verifyAccess (fst (Scripts.deploy 7)) 67890 [] (Array2 4 67890)
       <> Ok (false, payload).
Proof.
  split; [reflexivity |].
  split; [left; discriminate |].
  apply (signal_mismatch_reverts (fst (Scripts.deploy 7)) 67890%N [] (Array2 4 67890));
    [reflexivity | left; discriminate].
Defined.

(** C7: a resourceId that no [registerResource] call has named since
    deployment has no Resource, and every [verifyAccess] request for it fails
    with the revert "Resource not registered": an error raised to the caller,
    not a returned denial. *)
Theorem unregistered_resource_reverts
    (verifier : address) (calls : list call)
    (rid : uint256) (proof : bytes) (sigs : uint256_2) :
  ~ In rid (registered calls) ->
  verifyAccess (run (constructor verifier) calls) rid proof sigs
  = Revert "Resource not registered".
Proof.
  intros Hnot. apply verifyAccess_unregistered.
  rewrite perm_run_other by assumption.
  apply perm_constructor.
Qed.

(** The theorem after the sample session, for a resource id it did not
    register. *)
Lemma unregistered_resource_reverts_witness :
  ~ In 12345%N (registered Scripts.session)
  /\ verifyAccess (run (constructor 7) Scripts.session) 12345 []
       (Array2 5 12345)
     = Revert "Resource not registered".
Proof.
  assert (H : ~ In 12345%N (registered Scripts.session)).
  { cbn. intros [H | []]. discriminate H. }
  split; [exact H |].
  exact (unregistered_resource_reverts 7%N Scripts.session 12345%N []
           (Array2 5 12345) H).
Defined.

(** C9: the result of [verifyAccess] does not depend on its proof argument:
    any two byte strings give the same (granted, data) result or the same
    revert.  Nor does it depend on the stored verifier address; the verifier
    contract is never consulted. *)
Theorem verifyAccess_ignores_proof
    (c : state) (rid : uint256) (p1 p2 : bytes) (sigs : uint256_2)
    (newVerifier : address) :
  verifyAccess c rid p1 sigs = verifyAccess c rid p2 sigs
  /\ verifyAccess (updateVerifier c newVerifier) rid p1 sigs
     = verifyAccess c rid p2 sigs.
Proof. split; reflexivity. Qed.

(** C10: a resource registered with requiredPermission = 0 is accepted by
    [registerResource], which emits ResourceRegistered, and is from then on,
    whatever other resources are registered later, treated by [verifyAccess]
    like a resource never registered: every request for it reverts with
    "Resource not registered", exactly as on the freshly constructed
    contract. *)
Theorem zero_requirement_resource_unreachable
    (c : state) (rid : uint256) (d : string) (later : list call)
    (proof : bytes) (sigs : uint256_2) (verifier : address) :
  ~ In rid (registered later) ->
  snd (registerResource c rid 0 d) = [ResourceRegistered rid 0]
  /\ verifyAccess (run (fst (registerResource c rid 0 d)) later) rid proof sigs
     = Revert "Resource not registered"
  /\ verifyAccess (run (fst (registerResource c rid 0 d)) later) rid proof sigs
     = verifyAccess (constructor verifier) rid proof sigs.
Proof.
  intros Hlater.
  assert (H : verifyAccess (run (fst (registerResource c rid 0 d)) later)
                rid proof sigs
              = Revert "Resource not registered").
  { apply verifyAccess_unregistered.
    rewrite perm_run_other by assumption.
    rewrite perm_registerResource.
    destruct (decide (rid = rid)); [reflexivity | contradiction]. }
  split; [reflexivity |]. split; [exact H |].
  rewrite H. symmetry. apply verifyAccess_unregistered, perm_constructor.
Qed.

(** The theorem for resource 1 registered with requirement 0, followed by
    the sample session. *)
Lemma zero_requirement_resource_unreachable_witness :
  ~ In 1%N (registered Scripts.session)
  /\ snd (registerResource (constructor 7) 1 0 "open") = [ResourceRegistered 1 0]
  /\ verifyAccess
       (run (fst (registerResource (constructor 7) 1 0 "open")) Scripts.session)
       1 [] (Array2 0 1)
     = Revert "Resource not registered"
  /\ verifyAccess
       (run (fst (registerResource (constructor 7) 1 0 "open")) Scripts.session)
       1 [] (Array2 0 1)
     = verifyAccess (constructor 7) 1 [] (Array2 0 1).
Proof.
  assert (H : ~ In 1%N (registered Scripts.session)).
  { cbn. intros [H | []]. discriminate H. }
  split; [exact H |].
  exact (zero_requirement_resource_unreachable (constructor 7) 1%N "open"
           Scripts.session [] (Array2 0 1) 7%N H).
Defined.

End Gateway.

(** ** Witness generation and the end-to-end flow *)

Section EndToEnd.
Import ZKDataAccess.
Local Open Scope Z_scope.

(** C5: for every private permission at or above the threshold, on a
    registered resource and with matching signals, access is to be granted
    with the stored payload.  The code does otherwise at threshold 0:
    [registerResource] accepts resource 1 with requiredPermission = 0 and
    emits ResourceRegistered, a prover with permission 0 or 10 gets a witness
    with accessGranted = 1, and [verifyAccess] on the matching signals
    [0, 1] reverts with "Resource not registered", for every proof. *)
Theorem zero_threshold_registered_but_reverts (verifier : address) (proof : bytes) :
  snd (registerResource (constructor verifier) 1 0 "open")
  = [ResourceRegistered 1 0]
  /\ option_map Circuit.accessGranted (Circuit.DataAccess 0 0 1) = Some 1
  /\ option_map Circuit.accessGranted (Circuit.DataAccess 10 0 1) = Some 1
  /\ verifyAccess (fst (registerResource (constructor verifier) 1 0 "open"))
       1 proof (Array2 0 1)
     = Revert "Resource not registered".
Proof.
  split; [reflexivity |].
  split; [vm_compute; reflexivity |].
  split; [vm_compute; reflexivity |].
  apply verifyAccess_unregistered.
  rewrite perm_registerResource.
  destruct (decide (1%N = 1%N)); [reflexivity | contradiction].
Qed.

(** C6: witness generation is to reject, by an explicit range check, every
    input outside the 32-bit domain.  The code does otherwise: no range
    check guards the inputs.  A userPermission of 2^32, one past the width,
    yields a witness; a negative userPermission yields a witness; and for
    userPermission 3 a requiredPermission that wraps around the field yields
    a witness with accessGranted = 1, although 3 is below it. *)
Lemma out_of_range_input_yields_witness :
  option_map Circuit.accessGranted (Circuit.DataAccess (2 ^ 32) 5 67890) = Some 1
  /\ option_map Circuit.accessGranted (Circuit.DataAccess (-1) 5 67890) = Some 0
  /\ option_map Circuit.accessGranted
       (Circuit.DataAccess 3 (Field.p - 2 ^ 32 + 4) 67890) = Some 1.
Proof. vm_compute. repeat split. Qed.

End EndToEnd.


(** * Further properties of the contract *)

Section RegistryFacts.
Import ZKDataAccess Registry.

Lemma data_updateVerifier (c : state) (v : address) (k : uint256) :
  data (updateVerifier c v) k = data c k.
Proof. reflexivity. Qed.

Lemma run_cons (c : state) (t : call) (calls : list call) :
  run c (t :: calls) = run (fst (step c t)) calls.
Proof. reflexivity. Qed.

(** Resources that no call in a sequence registers keep their data. *)
Lemma data_run_other (calls : list call) :
  forall (c : state) (rid : uint256),
  ~ In rid (registered calls) ->
  data (run c calls) rid = data c rid.
Proof.
  induction calls as [| t calls IH]; intros c rid Hnot; [reflexivity |].
  rewrite run_cons.
  unfold registered in *. cbn [flat_map] in Hnot.
  rewrite in_app_iff in Hnot.
  rewrite IH by tauto.
  destruct t as [r rp d | v]; cbn [step fst].
  - rewrite data_registerResource.
    destruct (decide (r = rid)) as [-> | _]; [| reflexivity].
    exfalso. apply Hnot. left. left. reflexivity.
  - apply data_updateVerifier.
Qed.

(** X1: what [registerResource] stores can be read back through the public
    getters: the registered id reads the new requirement and data, every
    other id reads what it read before, and the verifier address is
    untouched. *)
Theorem registerResource_read_back
    (c : state) (rid rp : uint256) (d : string) (k : uint256) :
  get_resourcePermissions (fst (registerResource c rid rp d)) k
  = (if decide (rid = k) then rp else get_resourcePermissions c k)
  /\ get_resourceData (fst (registerResource c rid rp d)) k
     = (if decide (rid = k) then d else get_resourceData c k)
  /\ get_verifierContract (fst (registerResource c rid rp d))
     = get_verifierContract c.
Proof.
  unfold get_resourcePermissions, get_resourceData, get_verifierContract.
  rewrite perm_registerResource, data_registerResource. auto.
Qed.

(** X2: registering a resource id again overwrites: the contract state after
    two registrations of the same id is the state after the second alone. *)
Theorem registerResource_overwrites
    (c : state) (rid rp1 rp2 : uint256) (d1 d2 : string) :
  fst (registerResource (fst (registerResource c rid rp1 d1)) rid rp2 d2)
  = fst (registerResource c rid rp2 d2).
Proof.
  unfold registerResource. cbn [fst verifierContract resourcePermissions resourceData].
  rewrite !insert_insert_eq. reflexivity.
Qed.

(** X3: registrations of two different resource ids commute: either order
    leaves the same contract state. *)
Theorem registerResource_commutes
    (c : state) (rid1 rid2 rp1 rp2 : uint256) (d1 d2 : string) :
  rid1 <> rid2 ->
  fst (registerResource (fst (registerResource c rid1 rp1 d1)) rid2 rp2 d2)
  = fst (registerResource (fst (registerResource c rid2 rp2 d2)) rid1 rp1 d1).
Proof.
  intros Hne. unfold registerResource.
  cbn [fst verifierContract resourcePermissions resourceData].
  f_equal; apply insert_insert_ne; congruence.
Qed.

(** The commutation theorem on two different ids. *)
Lemma registerResource_commutes_witness :
  (1 <> 2)%N
  /\ fst (registerResource (fst (registerResource (constructor 7) 1 5 "a")) 2 6 "b")
     = fst (registerResource (fst (registerResource (constructor 7) 2 6 "b")) 1 5 "a").
Proof.
  assert (Hne : (1 <> 2)%N) by discriminate.
  split; [exact Hne |].
  exact (registerResource_commutes (constructor 7) 1%N 2%N 5%N 6%N "a" "b" Hne).
Defined.

(** X4: after any sequence of calls, what the getters read for a resource id
    is what the last [registerResource] call for that id stored, and what
    they read before the sequence when no call registered it. *)
Theorem last_registration_wins (calls : list call) (c : state) (rid : uint256) :
  get_resourcePermissions (run c calls) rid
  = match last_registration calls rid with
    | Some (rp, _) => rp
    | None => get_resourcePermissions c rid
    end
  /\ get_resourceData (run c calls) rid
     = match last_registration calls rid with
       | Some (_, d) => d
       | None => get_resourceData c rid
       end.
Proof.
  unfold get_resourcePermissions, get_resourceData.
  revert c. induction calls as [| t calls IH]; intros c; [split; reflexivity |].
  rewrite run_cons. cbn [last_registration].
  destruct (IH (fst (step c t))) as [IHp IHd]. rewrite IHp, IHd.
  destruct (last_registration calls rid) as [[rp d] |]; [split; reflexivity |].
  destruct t as [r rp d | v]; cbn [step fst].
  - rewrite perm_registerResource, data_registerResource.
    destruct (decide (r = rid)); split; reflexivity.
  - split; reflexivity.
Qed.

(** X5: a resource registered with a positive requirement is opened by the
    public signals [requiredPermission, resourceId] of that registration, and
    [verifyAccess] returns the registered data; this stays so after any later
    calls that do not register the id again. *)
Theorem registered_resource_opens
    (c : state) (rid rp : uint256) (d : string) (later : list call)
    (proof : bytes) :
  (0 < rp)%N ->
  ~ In rid (registered later) ->
  verifyAccess (run (fst (registerResource c rid rp d)) later) rid proof
    (Array2 rp rid)
  = Ok (true, d).
Proof.
  intros Hpos Hlater.
  apply verifyAccess_granted_iff. cbn [at0 at1].
  rewrite perm_run_other, data_run_other by assumption.
  rewrite perm_registerResource, data_registerResource.
  destruct (decide (rid = rid)); [auto | contradiction].
Qed.

(** The theorem for resource 1 registered with requirement 3 before the
    sample session. *)
Lemma registered_resource_opens_witness :
  (0 < 3)%N
  /\ ~ In 1%N (registered Scripts.session)
  /\ verifyAccess
       (run (fst (registerResource (constructor 7) 1 3 "one")) Scripts.session)
       1 [] (Array2 3 1)
     = Ok (true, "one").
Proof.
  assert (Hpos : (0 < 3)%N) by reflexivity.
  assert (H : ~ In 1%N (registered Scripts.session)).
  { cbn. intros [H | []]. discriminate H. }
  split; [exact Hpos |]. split; [exact H |].
  exact (registered_resource_opens (constructor 7) 1%N 3%N "one"
           Scripts.session [] Hpos H).
Defined.

(** X6: [verifyAccess] has four outcomes and no other: one of its three
    reverts, or granted = true with the stored data.  It never returns
    granted = false; the branch returning (false, "") cannot be reached. *)
Theorem verifyAccess_outcomes
    (c : state) (rid : uint256) (proof : bytes) (sigs : uint256_2) :
  (verifyAccess c rid proof sigs = Revert "Resource not registered"
   \/ verifyAccess c rid proof sigs = Revert "Invalid required permission"
   \/ verifyAccess c rid proof sigs = Revert "Invalid resource ID"
   \/ verifyAccess c rid proof sigs = Ok (true, get_resourceData c rid))
  /\ forall payload, verifyAccess c rid proof sigs <> Ok (false, payload).
Proof.
  split; [| intros payload; apply verifyAccess_never_denies].
  rewrite verifyAccess_eval. unfold get_resourceData.
  repeat match goal with |- context [if ?b then _ else _] => destruct b end;
    auto.
Qed.

(** X7: the events of a sequence of calls are the ResourceRegistered events
    of its [registerResource] calls, one per call and in call order, whatever
    the state; AccessVerified is declared by the contract and never
    emitted. *)
Theorem emitted_events (calls : list call) (c : state) :
  emitted c calls
  = flat_map (fun t => match t with
                       | CallRegisterResource rid rp _ => [ResourceRegistered rid rp]
                       | CallUpdateVerifier _ => []
                       end) calls
  /\ forall rid granted, ~ In (AccessVerified rid granted) (emitted c calls).
Proof.
  assert (Hlog : forall c',
            emitted c' calls
            = flat_map (fun t => match t with
                                 | CallRegisterResource rid rp _ =>
                                     [ResourceRegistered rid rp]
                                 | CallUpdateVerifier _ => []
                                 end) calls).
  { induction calls as [| t calls IH]; intros c'; [reflexivity |].
    cbn [emitted flat_map]. rewrite IH.
    destruct t; reflexivity. }
  split; [apply Hlog |].
  intros rid granted. rewrite Hlog.
  rewrite in_flat_map. intros (t & _ & Hin).
  destruct t; cbn in Hin; [destruct Hin as [H | []]; discriminate H | exact Hin].
Qed.

(** X8: [updateVerifier] is open to every caller and every address, and only
    replaces the stored address: after any sequence of calls the stored
    verifier is the argument of the last [updateVerifier] call, or the
    constructor-time address when there was none, and an [updateVerifier]
    call changes no resource's requirement or data. *)
Theorem last_verifier_wins (calls : list call) (c : state)
    (v : address) (rid : uint256) :
  get_verifierContract (run c calls)
  = default (get_verifierContract c) (last_verifier calls)
  /\ get_verifierContract (updateVerifier c v) = v
  /\ get_resourcePermissions (updateVerifier c v) rid = get_resourcePermissions c rid
  /\ get_resourceData (updateVerifier c v) rid = get_resourceData c rid.
Proof.
  split; [| repeat split].
  unfold get_verifierContract.
  revert c. induction calls as [| t calls IH]; intros c; [reflexivity |].
  rewrite run_cons. cbn [last_verifier]. rewrite IH.
  destruct (last_verifier calls); [reflexivity |].
  destruct t; reflexivity.
Qed.

(** X9: the payload [verifyAccess] returns is never more than the public
    getter gives without any proof: whenever [verifyAccess] returns a
    result, its data is what [resourceData(resourceId)] reads in the same
    state. *)
Theorem verifyAccess_returns_getter_data
    (c : state) (rid : uint256) (proof : bytes) (sigs : uint256_2)
    (granted : bool) (payload : string) :
  verifyAccess c rid proof sigs = Ok (granted, payload) ->
  granted = true /\ payload = get_resourceData c rid.
Proof.
  intros H. destruct granted.
  - apply verifyAccess_granted_iff in H as (_ & _ & _ & ->). auto.
  - exfalso. exact (verifyAccess_never_denies c rid proof sigs payload H).
Qed.

(** The theorem on the deployed sample resource. *)
Lemma verifyAccess_returns_getter_data_witness :
  verifyAccess (fst (Scripts.deploy 7)) 67890 [] (Array2 5 67890)
  = Ok (true, Scripts.sampleData)
  /\ true = true
  /\ Scripts.sampleData = get_resourceData (fst (Scripts.deploy 7)) 67890.
Proof.
  assert (H : verifyAccess (fst (Scripts.deploy 7)) 67890 [] (Array2 5 67890)
              = Ok (true, Scripts.sampleData)) by reflexivity.
  split; [exact H |].
  exact (verifyAccess_returns_getter_data (fst (Scripts.deploy 7)) 67890%N []
           (Array2 5 67890) true Scripts.sampleData H).
Defined.

(** X24: resources are isolated from each other: registering one resource
    id, with any requirement and data, changes the result of no
    [verifyAccess] request for a different id. *)
Theorem registerResource_isolated
    (c : state) (rid rp : uint256) (d : string)
    (other : uint256) (proof : bytes) (sigs : uint256_2) :
  rid <> other ->
  verifyAccess (fst (registerResource c rid rp d)) other proof sigs
  = verifyAccess c other proof sigs.
Proof.
  intros Hne. rewrite !verifyAccess_eval.
  rewrite perm_registerResource, data_registerResource.
  destruct (decide (rid = other)); [contradiction | reflexivity].
Qed.

(** The isolation theorem on the deployed sample resource, after the
    registration of resource 1. *)
Lemma registerResource_isolated_witness :
  (1 <> 67890)%N
  /\ verifyAccess (fst (registerResource (fst (Scripts.deploy 7)) 1 9 "one"))
       67890 [] (Array2 5 67890)
     = verifyAccess (fst (Scripts.deploy 7)) 67890 [] (Array2 5 67890).
Proof.
  assert (Hne : (1 <> 67890)%N) by discriminate.
  split; [exact Hne |].
  exact (registerResource_isolated (fst (Scripts.deploy 7)) 1%N 9%N "one"
           67890%N [] (Array2 5 67890) Hne).
Defined.

End RegistryFacts.

(** * Further properties of the circuit *)

Section MoreCircuitFacts.
Local Open Scope Z_scope.

Lemma pow2_le_p (n : nat) : (n <= 253)%nat -> 2 ^ Z.of_nat n <= Field.p.
Proof.
  intros Hn. pose proof p_bounds as Hp.
  assert (2 ^ Z.of_nat n <= 2 ^ 253) by (apply Z.pow_le_mono_r; lia).
  lia.
Qed.

(** What the loop of [Num2Bits] emits: as many bits as steps, each 0 or 1,
    standing for the slice of the input it walked over. *)
Lemma Num2Bits_loop_bits (steps : nat) : forall (i x lc e2 : Z) out lc',
  0 <= i ->
  Circomlib.Num2Bits_loop steps i x lc e2 = Some (out, lc') ->
  length out = steps
  /\ Forall (fun b => b = 0 \/ b = 1) out
  /\ bits_value out = (x / 2 ^ i) mod 2 ^ Z.of_nat steps.
Proof.
  induction steps as [| k IH]; intros i x lc e2 out lc' Hi Hrun.
  - cbn in Hrun. injection Hrun as <- <-.
    cbn [length bits_value]. rewrite Z.mod_1_r. auto.
  - cbn [Circomlib.Num2Bits_loop] in Hrun.
    rewrite bit_at in Hrun by assumption.
    set (b := (x / 2 ^ i) mod 2) in *.
    assert (Hb : 0 <= b < 2) by (apply Z.mod_pos_bound; lia).
    rewrite bit_constraint in Hrun by assumption.
    destruct (Circomlib.Num2Bits_loop k (i + 1) x
                (Field.add lc (Field.mul b e2)) (Field.add e2 e2))
      as [[out' lc''] |] eqn:Hrec; [| discriminate].
    injection Hrun as <- <-.
    destruct (IH _ _ _ _ _ _ (ltac:(lia) : 0 <= i + 1) Hrec) as (Hlen & Hbits & Hval).
    cbn [length bits_value]. rewrite Hlen, Hval.
    split; [reflexivity |]. split.
    + constructor; [lia | assumption].
    + rewrite slice_step by assumption. reflexivity.
Qed.

(** X10: [Num2Bits(n)] round trip: whenever the decomposition of a signal
    succeeds, it returns exactly [n] bits, each 0 or 1, whose weighted sum is
    the signal again; and the signal is then below 2^n. *)
Theorem Num2Bits_round_trip (n : nat) (x : Z) (out : list Z) :
  2 ^ Z.of_nat n <= Field.p ->
  Circomlib.Num2Bits n x = Some out ->
  length out = n
  /\ Forall (fun b => b = 0 \/ b = 1) out
  /\ bits_value out = x
  /\ 0 <= x < 2 ^ Z.of_nat n.
Proof.
  intros Hn Hrun. unfold Circomlib.Num2Bits in Hrun.
  destruct (Num2Bits_loop_spec n 0 x 0 1) as (out0 & Hloop & _);
    [lia | pose proof p_pos; lia |].
  rewrite Hloop in Hrun.
  rewrite Z.pow_0_r, Z.div_1_r, Z.add_0_l, Z.mul_1_l in Hrun, Hloop.
  assert (H2 : 0 < 2 ^ Z.of_nat n) by (apply Z.pow_pos_nonneg; lia).
  pose proof (Z.mod_pos_bound x (2 ^ Z.of_nat n) H2) as Hm.
  rewrite (Z.mod_small (x mod _)) in Hrun, Hloop by lia.
  destruct (Z.eqb_spec (x mod 2 ^ Z.of_nat n) x) as [Hx | _]; [| discriminate].
  injection Hrun as <-.
  destruct (Num2Bits_loop_bits n 0 x 0 1 out0 _ (Z.le_refl 0) Hloop)
    as (Hlen & Hbits & Hval).
  rewrite Z.pow_0_r, Z.div_1_r, Hx in Hval.
  repeat split; try assumption; lia.
Qed.

(** The round trip on the 33-bit decomposition of 2^32 + 4. *)
Lemma Num2Bits_round_trip_witness :
  2 ^ Z.of_nat 33 <= Field.p
  /\ Circomlib.Num2Bits 33 4294967300
     = Some ([0; 0; 1] ++ repeat 0 29 ++ [1])%list
  /\ length ([0; 0; 1] ++ repeat 0 29 ++ [1])%list = 33%nat
  /\ Forall (fun b => b = 0 \/ b = 1) ([0; 0; 1] ++ repeat 0 29 ++ [1])%list
  /\ bits_value ([0; 0; 1] ++ repeat 0 29 ++ [1])%list = 4294967300
  /\ 0 <= 4294967300 < 2 ^ Z.of_nat 33.
Proof.
  assert (Hn : 2 ^ Z.of_nat 33 <= Field.p) by (vm_compute; discriminate).
  assert (Hrun : Circomlib.Num2Bits 33 4294967300
                 = Some ([0; 0; 1] ++ repeat 0 29 ++ [1])%list) by reflexivity.
  split; [exact Hn |]. split; [exact Hrun |].
  exact (Num2Bits_round_trip 33 4294967300 _ Hn Hrun).
Defined.

Lemma shl1_small (n : nat) : (n <= 252)%nat -> Field.shl1 n = 2 ^ Z.of_nat n.
Proof.
  intros Hn. unfold Field.shl1. rewrite Z.shiftl_1_l.
  pose proof (pow2_le_p (S n) ltac:(lia)) as Hp.
  rewrite Nat2Z.inj_succ, Z.pow_succ_r in Hp by lia.
  assert (0 < 2 ^ Z.of_nat n) by (apply Z.pow_pos_nonneg; lia).
  apply Z.mod_small. lia.
Qed.

(** [LessThan(n)] on an n-bit first operand and a second operand up to 2^n. *)
Lemma LessThan_correct (n : nat) (a b : Z) :
  (n <= 252)%nat ->
  0 <= a < 2 ^ Z.of_nat n -> 0 <= b <= 2 ^ Z.of_nat n ->
  Circomlib.LessThan n a b = Some (if a <? b then 1 else 0).
Proof.
  intros Hn Ha Hb. unfold Circomlib.LessThan.
  destruct (Nat.ltb_spec 252 n) as [? | _]; [lia |].
  pose proof (pow2_le_p (n + 1) ltac:(lia)) as Hp.
  assert (Hpow : 2 ^ Z.of_nat (n + 1) = 2 * 2 ^ Z.of_nat n).
  { rewrite Nat.add_1_r, Nat2Z.inj_succ, Z.pow_succ_r by lia. reflexivity. }
  assert (Hop : Field.sub (Field.add a (Field.shl1 n)) b = a + 2 ^ Z.of_nat n - b).
  { rewrite shl1_small by assumption. unfold Field.sub, Field.add.
    rewrite Zminus_mod_idemp_l. apply Z.mod_small. lia. }
  rewrite Hop.
  destruct (Num2Bits_fits (n + 1) (a + 2 ^ Z.of_nat n - b)) as (out & -> & Hnth);
    [assumption | lia |].
  rewrite Hnth by lia. f_equal.
  destruct (Z.ltb_spec a b) as [Hlt | Hge].
  - rewrite Z.div_small by lia. reflexivity.
  - replace ((a + 2 ^ Z.of_nat n - b) / 2 ^ Z.of_nat n) with 1; [reflexivity |].
    apply Z.div_unique with (r := a - b); lia.
Qed.

(** X11: the comparator at every width: for [n] up to 252, on two values of
    [n] bits, [GreaterEqThan(n)] always produces an output, 1 when the first
    is greater than or equal to the second and 0 otherwise; beyond width 252
    the template's assertion fails and there is no output. *)
Theorem GreaterEqThan_correct (n : nat) (in0 in1 : Z) :
  ((n <= 252)%nat ->
   0 <= in0 < 2 ^ Z.of_nat n -> 0 <= in1 < 2 ^ Z.of_nat n ->
   Circomlib.GreaterEqThan n in0 in1 = Some (if in1 <=? in0 then 1 else 0))
  /\ ((252 < n)%nat -> Circomlib.GreaterEqThan n in0 in1 = None).
Proof.
  split.
  - intros Hn H0 H1. unfold Circomlib.GreaterEqThan.
    pose proof (pow2_le_p (S n) ltac:(lia)) as Hp.
    rewrite Nat2Z.inj_succ, Z.pow_succ_r in Hp by lia.
    assert (Hadd : Field.add in0 1 = in0 + 1)
      by (unfold Field.add; apply Z.mod_small; lia).
    rewrite Hadd, LessThan_correct by (assumption || lia).
    f_equal.
    destruct (Z.ltb_spec in1 (in0 + 1)), (Z.leb_spec in1 in0);
      solve [reflexivity | lia].
  - intros Hn. unfold Circomlib.GreaterEqThan, Circomlib.LessThan.
    apply Nat.ltb_lt in Hn. rewrite Hn. reflexivity.
Qed.

(** The comparator theorem at width 8, on 200 against 100, and at width
    253. *)
Lemma GreaterEqThan_correct_witness :
  Circomlib.GreaterEqThan 8 200 100 = Some 1
  /\ Circomlib.GreaterEqThan 8 100 200 = Some 0
  /\ Circomlib.GreaterEqThan 253 200 100 = None.
Proof.
  split; [| split].
  - apply (proj1 (GreaterEqThan_correct 8 200 100));
      [lia | split; [lia | reflexivity] | split; [lia | reflexivity]].
  - apply (proj1 (GreaterEqThan_correct 8 100 200));
      [lia | split; [lia | reflexivity] | split; [lia | reflexivity]].
  - apply (proj2 (GreaterEqThan_correct 253 200 100)). lia.
Defined.

(** X12: inside the 32-bit domain the circuit decides the comparison: a
    witness always exists, its accessGranted is 1 exactly when userPermission
    is at least requiredPermission, and 0 exactly when it is below. *)
Theorem DataAccess_decides (u r id : Z) :
  Circuit.in_domain u -> Circuit.in_domain r ->
  exists w,
    Circuit.DataAccess u r id = Some w
    /\ (Circuit.accessGranted w = 1 <-> r <= u)
    /\ (Circuit.accessGranted w = 0 <-> u < r).
Proof.
  intros Hu Hr. rewrite DataAccess_in_domain by assumption.
  eexists. split; [reflexivity |].
  cbn [Circuit.accessGranted].
  destruct (Z.leb_spec r u); split; split; intros; solve [lia | discriminate].
Qed.

(** The decision theorem on permission 3 against threshold 5. *)
Lemma DataAccess_decides_witness :
  Circuit.in_domain 3 /\ Circuit.in_domain 5
  /\ exists w,
       Circuit.DataAccess 3 5 67890 = Some w
       /\ (Circuit.accessGranted w = 1 <-> 5 <= 3)
       /\ (Circuit.accessGranted w = 0 <-> 3 < 5).
Proof.
  assert (H3 : Circuit.in_domain 3) by (unfold Circuit.in_domain, Circuit.width; lia).
  assert (H5 : Circuit.in_domain 5) by (unfold Circuit.in_domain, Circuit.width; lia).
  split; [exact H3 |]. split; [exact H5 |].
  exact (DataAccess_decides 3 5 67890 H3 H5).
Defined.

(** X13: on every input, inside the domain or not, a witness that exists has
    a boolean accessGranted, carries the three inputs as field elements, and
    has resourceIdCheck equal to resourceId. *)
Theorem DataAccess_witness_shape (u r id : Z) (w : Circuit.witness) :
  Circuit.DataAccess u r id = Some w ->
  (Circuit.accessGranted w = 0 \/ Circuit.accessGranted w = 1)
  /\ Circuit.userPermission w = Field.of_Z u
  /\ Circuit.public_inputs w = [Field.of_Z r; Field.of_Z id]
  /\ Circuit.resourceIdCheck w = Circuit.resourceId w.
Proof.
  rewrite DataAccess_eval.
  destruct (2 ^ 33 <=? (r + 2 ^ 32 - (u + 1)) mod Field.p); [discriminate |].
  intros [= <-]. cbn.
  destruct ((r + 2 ^ 32 - (u + 1)) mod Field.p <? 2 ^ 32); auto.
Qed.

(** The shape theorem on an input one past the width. *)
Lemma DataAccess_witness_shape_witness :
  Circuit.DataAccess (2 ^ 32) 5 67890
  = Some (Circuit.Witness 4294967296 5 67890 1 67890)
  /\ (Circuit.accessGranted (Circuit.Witness 4294967296 5 67890 1 67890) = 0
      \/ Circuit.accessGranted (Circuit.Witness 4294967296 5 67890 1 67890) = 1)
  /\ Circuit.userPermission (Circuit.Witness 4294967296 5 67890 1 67890)
     = Field.of_Z (2 ^ 32)
  /\ Circuit.public_inputs (Circuit.Witness 4294967296 5 67890 1 67890)
     = [Field.of_Z 5; Field.of_Z 67890]
  /\ Circuit.resourceIdCheck (Circuit.Witness 4294967296 5 67890 1 67890)
     = Circuit.resourceId (Circuit.Witness 4294967296 5 67890 1 67890).
Proof.
  assert (H : Circuit.DataAccess (2 ^ 32) 5 67890
              = Some (Circuit.Witness 4294967296 5 67890 1 67890))
    by (vm_compute; reflexivity).
  split; [exact H |].
  exact (DataAccess_witness_shape (2 ^ 32) 5 67890 _ H).
Defined.

(** X14: resourceId takes no part in the comparison: whether a witness
    exists, and the accessGranted it carries, are the same for any two
    resource ids. *)
Theorem DataAccess_ignores_resourceId (u r id1 id2 : Z) :
  option_map Circuit.accessGranted (Circuit.DataAccess u r id1)
  = option_map Circuit.accessGranted (Circuit.DataAccess u r id2).
Proof.
  rewrite !DataAccess_eval.
  destruct (2 ^ 33 <=? (r + 2 ^ 32 - (u + 1)) mod Field.p); reflexivity.
Qed.

(** X25: for a threshold inside the 32-bit domain, the private inputs that
    obtain accessGranted = 1 are, among all field elements, exactly those
    from the threshold up to 2^32 - 1 above it: no value below the threshold
    and no value wrapping around the field is accepted. *)
Theorem DataAccess_accepts_iff (u r id : Z) :
  Circuit.in_domain r -> 0 <= u < Field.p ->
  (exists w, Circuit.DataAccess u r id = Some w /\ Circuit.accessGranted w = 1)
  <-> r <= u < r + 2 ^ 32.
Proof.
  unfold Circuit.in_domain, Circuit.width. intros Hr Hu.
  rewrite DataAccess_eval.
  pose proof p_bounds as Hp.
  assert (H32 : 2 ^ 32 = 4294967296) by reflexivity.
  assert (H33 : 2 ^ 33 = 8589934592) by reflexivity.
  assert (H253 : 2 ^ 253 > 2 ^ 33) by reflexivity.
  destruct (Z_lt_le_dec u (r + 2 ^ 32)) as [Hlow | Hhigh].
  - rewrite (Z.mod_small (r + 2 ^ 32 - (u + 1))) by lia.
    destruct (Z.leb_spec (2 ^ 33) (r + 2 ^ 32 - (u + 1))); [lia |].
    destruct (Z.ltb_spec (r + 2 ^ 32 - (u + 1)) (2 ^ 32)); split.
    + intros _. lia.
    + intros _. eexists. split; reflexivity.
    + intros (w & [= <-] & Hg). discriminate Hg.
    + intros ?. lia.
  - assert (Hmod : (r + 2 ^ 32 - (u + 1)) mod Field.p
                   = r + 2 ^ 32 - (u + 1) + Field.p).
    { rewrite <- (Z_mod_plus_full _ 1 Field.p), Z.mul_1_l.
      apply Z.mod_small. lia. }
    rewrite Hmod. split; [| intros ?; lia].
    destruct (2 ^ 33 <=? r + 2 ^ 32 - (u + 1) + Field.p);
      [intros (w & Hw & _); discriminate Hw |].
    destruct (Z.ltb_spec (r + 2 ^ 32 - (u + 1) + Field.p) (2 ^ 32)); [lia |].
    intros (w & [= <-] & Hg). discriminate Hg.
Qed.

(** The theorem at threshold 5: the largest field element, which wraps to
    -1, is not accepted, and 5 is. *)
Lemma DataAccess_accepts_iff_witness :
  Circuit.in_domain 5 /\ 0 <= Field.p - 1 < Field.p
  /\ ~ (exists w, Circuit.DataAccess (Field.p - 1) 5 67890 = Some w
                  /\ Circuit.accessGranted w = 1)
  /\ exists w, Circuit.DataAccess 5 5 67890 = Some w
               /\ Circuit.accessGranted w = 1.
Proof.
  assert (H5 : Circuit.in_domain 5) by (unfold Circuit.in_domain, Circuit.width; lia).
  assert (Hp : 0 <= Field.p - 1 < Field.p) by (unfold Field.p; lia).
  split; [exact H5 |]. split; [exact Hp |]. split.
  - intros Hacc.
    apply (proj1 (DataAccess_accepts_iff (Field.p - 1) 5 67890 H5 Hp)) in Hacc.
    unfold Field.p in Hacc. lia.
  - apply (proj2 (DataAccess_accepts_iff 5 5 67890 H5
                    ltac:(unfold Field.p; lia))).
    lia.
Defined.

End MoreCircuitFacts.

(** * Further properties of the flow *)

Section MoreFlowFacts.
Import ZKDataAccess Registry.


End MoreFlowFacts.

(** * Properties of the scripts *)

Section ScriptFacts.
Import Scripting.

(** A run through a plan attempts a prefix of the plan. *)
Lemma run_plan_prefix {item : Type} (returns : item -> bool)
    (plan : list (item * ending)) :
  exists rest, map fst plan = (fst (run_plan returns plan) ++ rest)%list.
Proof.
  induction plan as [| [o t] plan [rest IH]]; [exists []; reflexivity |].
  cbn [run_plan map fst]. unfold attempt.
  destruct (returns o); cbn [fst].
  - exists rest. rewrite IH. reflexivity.
  - exists (map fst plan). reflexivity.
Qed.

(** When no throw of the plan leads to exit code 0, the run ends with 0
    exactly when every operation of the plan returns, and then all of the
    plan was attempted. *)
Lemma run_plan_exit0 {item : Type} (returns : item -> bool)
    (plan : list (item * ending)) :
  Forall (fun step => snd step <> Exit 0) plan ->
  (snd (run_plan returns plan) = Exit 0
   <-> forall o, In o (map fst plan) -> returns o = true)
  /\ (snd (run_plan returns plan) = Exit 0 ->
      fst (run_plan returns plan) = map fst plan).
Proof.
  induction 1 as [| [o t] plan Ht _ [IHiff IHall]];
    [cbn; split; [split; [intros _ ? [] | reflexivity] | reflexivity] |].
  cbn [run_plan map fst snd] in *. unfold attempt.
  destruct (returns o) eqn:Ho; cbn [fst snd].
  - split.
    + rewrite IHiff. split.
      * intros Hall o' [<- | Hin]; [exact Ho | exact (Hall o' Hin)].
      * intros Hall o' Hin. apply Hall. right. exact Hin.
    + intros Hend. rewrite (IHall Hend). reflexivity.
  - split.
    + split; [intros Hend; contradiction |].
      intros Hall. rewrite (Hall o (or_introl eq_refl)) in Ho. discriminate.
    + intros Hend. contradiction.
Qed.

Lemma compile_script_plan (e : CompileCircuit.env) :
  CompileCircuit.script e
  = run_plan (CompileCircuit.returns e) (CompileCircuit.plan e).
Proof.
  unfold CompileCircuit.script, CompileCircuit.plan.
  destruct (CompileCircuit.build_dir_exists e),
           (CompileCircuit.ptau_exists e),
           (CompileCircuit.ptau_temp_exists e); reflexivity.
Qed.

Lemma compile_plan_throws (e : CompileCircuit.env) :
  Forall (fun step => snd step <> Exit 0) (CompileCircuit.plan e).
Proof.
  unfold CompileCircuit.plan.
  destruct (CompileCircuit.build_dir_exists e),
           (CompileCircuit.ptau_exists e),
           (CompileCircuit.ptau_temp_exists e);
    repeat constructor; discriminate.
Qed.

Lemma run_plan_attempted {item : Type} (returns : item -> bool)
    (plan : list (item * ending)) (o : item) :
  In o (fst (run_plan returns plan)) -> In o (map fst plan).
Proof.
  intros Hin. destruct (run_plan_prefix returns plan) as [rest ->].
  apply in_or_app. left. exact Hin.
Qed.

Lemma compile_run_exit0 (e : CompileCircuit.env) :
  (snd (CompileCircuit.script e) = Exit 0
   <-> forall o, In o (map fst (CompileCircuit.plan e)) ->
                 CompileCircuit.returns e o = true)
  /\ (snd (CompileCircuit.script e) = Exit 0 ->
      fst (CompileCircuit.script e) = map fst (CompileCircuit.plan e)).
Proof.
  rewrite compile_script_plan.
  apply run_plan_exit0, compile_plan_throws.
Qed.

(** X17: the compile script exits with code 0 exactly when every operation
    on its way returns: the version check, the compilation, the setup
    commands, the verifier export and rewrite, the directories it has to
    make and, when the powers-of-tau file is missing, the ceremony; it has
    then attempted all of them, in order. *)
Theorem compile_exits_0_iff (e : CompileCircuit.env) :
  (snd (CompileCircuit.script e) = Exit 0
   <-> forall o, In o (map fst (CompileCircuit.plan e)) ->
                 CompileCircuit.returns e o = true)
  /\ (snd (CompileCircuit.script e) = Exit 0 ->
      fst (CompileCircuit.script e) = map fst (CompileCircuit.plan e)).
Proof.
  destruct (compile_run_exit0 e) as [Hiff Hall]. split.
  - split; [intros Hend o Ho; exact (proj1 Hiff Hend o Ho) |].
    intros Hret. apply (proj2 Hiff). exact Hret.
  - exact Hall.
Qed.

(** A run through a plan in which an operation throws ends there: what
    was attempted is the plan up to that operation, and the ending is the
    one its throw leads to. *)
Lemma run_plan_first_throw {item : Type} (returns : item -> bool)
    (pre : list (item * ending)) (o : item) (t : ending)
    (post : list (item * ending)) :
  (forall o', In o' (map fst pre) -> returns o' = true) ->
  returns o = false ->
  run_plan returns (pre ++ (o, t) :: post) = ((map fst pre ++ [o])%list, t).
Proof.
  intros Hpre Ho.
  induction pre as [| [o1 t1] pre IH]; cbn [app map fst run_plan].
  - unfold attempt. rewrite Ho. reflexivity.
  - rewrite (Hpre o1 (or_introl eq_refl)). unfold attempt at 1.
    rewrite IH by (intros o' Hin; apply Hpre; right; exact Hin).
    reflexivity.
Qed.

(** A run through a plan in which nothing throws attempts all of it and
    exits with 0. *)
Lemma run_plan_no_throw {item : Type} (returns : item -> bool)
    (plan : list (item * ending)) :
  (forall o, In o (map fst plan) -> returns o = true) ->
  run_plan returns plan = (map fst plan, Exit 0).
Proof.
  induction plan as [| [o t] plan IH]; intros Hall; [reflexivity |].
  cbn [run_plan map fst]. rewrite (Hall o (or_introl eq_refl)).
  unfold attempt. rewrite IH by (intros o' Hin; apply Hall; right; exact Hin).
  reflexivity.
Qed.

(** The ending the plan pairs with each operation of the compile script. *)
Lemma compile_plan_endings (e : CompileCircuit.env)
    (o : CompileCircuit.op) (t : ending) :
  In (o, t) (CompileCircuit.plan e) ->
  t = match o with
      | CompileCircuit.MkdirBuild | CompileCircuit.WriteInput => Uncaught
      | _ => Exit 1
      end.
Proof.
  unfold CompileCircuit.plan.
  destruct (CompileCircuit.build_dir_exists e),
           (CompileCircuit.ptau_exists e),
           (CompileCircuit.ptau_temp_exists e); cbn [app In]; intros Hin;
    repeat (destruct Hin as [[= <- <-] | Hin]; [reflexivity |]);
    contradiction.
Qed.

(** X18: the compile script stops at the first operation that throws: what
    it attempts is then its plan up to and including that operation, and it
    ends in an uncaught exception when that operation is one of the two
    standing outside any try, the creation of the build directory and the
    write of the input file, and with exit code 1 for every other one.  When
    nothing throws it attempts the whole plan and exits with 0. *)
Theorem compile_fail_fast (e : CompileCircuit.env) :
  (forall pre o post,
      map fst (CompileCircuit.plan e) = (pre ++ o :: post)%list ->
      (forall o', In o' pre -> CompileCircuit.returns e o' = true) ->
      CompileCircuit.returns e o = false ->
      CompileCircuit.script e
      = ((pre ++ [o])%list,
         match o with
         | CompileCircuit.MkdirBuild | CompileCircuit.WriteInput => Uncaught
         | _ => Exit 1
         end))
  /\ ((forall o, In o (map fst (CompileCircuit.plan e)) ->
                 CompileCircuit.returns e o = true) ->
      CompileCircuit.script e = (map fst (CompileCircuit.plan e), Exit 0)).
Proof.
  split.
  - intros pre o post Hsplit Hpre Ho.
    apply map_eq_app in Hsplit as (pre' & rest & Hplan & Hpre' & Hrest).
    apply map_eq_cons in Hrest as ([o0 t] & post' & -> & Ho0 & _).
    cbn [fst] in Ho0. subst o0 pre.
    assert (Ht : t = match o with
                     | CompileCircuit.MkdirBuild
                     | CompileCircuit.WriteInput => Uncaught
                     | _ => Exit 1
                     end).
    { apply (compile_plan_endings e). rewrite Hplan.
      apply in_or_app. right. left. reflexivity. }
    rewrite compile_script_plan, Hplan, <- Ht.
    apply run_plan_first_throw; assumption.
  - intros Hall. rewrite compile_script_plan.
    apply run_plan_no_throw. exact Hall.
Qed.

(** The theorem on an environment where everything exists and only the
    compilation throws, and on one where only the write of the input file
    throws. *)
Lemma compile_fail_fast_witness :
  CompileCircuit.script
    (CompileCircuit.Env true true true
       (fun o => match o with
                 | CompileCircuit.CircomCompile => false
                 | _ => true
                 end))
  = ([CompileCircuit.CircomVersion; CompileCircuit.CircomCompile], Exit 1)
  /\ CompileCircuit.script
       (CompileCircuit.Env true true true
          (fun o => match o with
                    | CompileCircuit.WriteInput => false
                    | _ => true
                    end))
     = ([CompileCircuit.CircomVersion; CompileCircuit.CircomCompile;
         CompileCircuit.ZkeySetup; CompileCircuit.ZkeyContribute;
         CompileCircuit.ExportVerificationKey;
         CompileCircuit.ExportSolidityVerifier; CompileCircuit.ReadVerifier;
         CompileCircuit.WriteVerifier; CompileCircuit.WriteInput],
        Uncaught).
Proof.
  split.
  - apply (proj1 (compile_fail_fast _) [CompileCircuit.CircomVersion]
             CompileCircuit.CircomCompile
             [CompileCircuit.ZkeySetup; CompileCircuit.ZkeyContribute;
              CompileCircuit.ExportVerificationKey;
              CompileCircuit.ExportSolidityVerifier;
              CompileCircuit.ReadVerifier; CompileCircuit.WriteVerifier;
              CompileCircuit.WriteInput]);
      [reflexivity | | reflexivity].
    cbn [In]. intros o' [<- | []]. reflexivity.
  - apply (proj1 (compile_fail_fast _)
             [CompileCircuit.CircomVersion; CompileCircuit.CircomCompile;
              CompileCircuit.ZkeySetup; CompileCircuit.ZkeyContribute;
              CompileCircuit.ExportVerificationKey;
              CompileCircuit.ExportSolidityVerifier;
              CompileCircuit.ReadVerifier; CompileCircuit.WriteVerifier]
             CompileCircuit.WriteInput []);
      [reflexivity | | reflexivity].
    cbn [In]. intros o' Hin.
    repeat (destruct Hin as [<- | Hin]; [reflexivity |]). contradiction.
Defined.

(** X19: the powers-of-tau ceremony is run only when the powers-of-tau file
    is missing: when the file exists none of its operations is attempted, and
    when it is missing a run that exits with 0 has gone through new,
    contribute, prepare phase2 and the removal of the temporary directory. *)
Theorem ptau_ceremony_only_when_missing (e : CompileCircuit.env) :
  (CompileCircuit.ptau_exists e = true ->
   forall o,
     In o [CompileCircuit.MkdirPtauTemp; CompileCircuit.PtauNew;
           CompileCircuit.PtauContribute; CompileCircuit.PtauPrepare;
           CompileCircuit.RmPtauTemp] ->
     ~ In o (fst (CompileCircuit.script e)))
  /\ (CompileCircuit.ptau_exists e = false ->
      snd (CompileCircuit.script e) = Exit 0 ->
      forall o,
        In o [CompileCircuit.PtauNew; CompileCircuit.PtauContribute;
              CompileCircuit.PtauPrepare; CompileCircuit.RmPtauTemp] ->
        In o (fst (CompileCircuit.script e))
        /\ CompileCircuit.returns e o = true).
Proof.
  split.
  - intros Hex o Ho Hin. rewrite compile_script_plan in Hin.
    apply run_plan_attempted in Hin.
    unfold CompileCircuit.plan in Hin. rewrite Hex in Hin.
    destruct (CompileCircuit.build_dir_exists e); cbn in Hin, Ho;
      repeat (destruct Ho as [<- | Ho]; [intuition discriminate |]);
      exact Ho.
  - intros Hex Hend o Ho.
    destruct (compile_run_exit0 e) as [Hiff Hall].
    assert (Hin : In o (map fst (CompileCircuit.plan e))).
    { unfold CompileCircuit.plan. rewrite Hex.
      rewrite !map_app, !in_app_iff. right. right. left.
      destruct (CompileCircuit.ptau_temp_exists e); cbn in Ho |- *; tauto. }
    split.
    + rewrite (Hall Hend). exact Hin.
    + exact (proj1 Hiff Hend o Hin).
Qed.

(** The ceremony theorem on an environment where the powers-of-tau file
    exists, and on one where everything is missing and every operation
    returns. *)
Lemma ptau_ceremony_only_when_missing_witness :
  ~ In CompileCircuit.PtauNew
       (fst (CompileCircuit.script
               (CompileCircuit.Env true true false (fun _ => true))))
  /\ In CompileCircuit.PtauNew
        (fst (CompileCircuit.script
                (CompileCircuit.Env false false false (fun _ => true)))).
Proof.
  split.
  - apply (proj1 (ptau_ceremony_only_when_missing
                    (CompileCircuit.Env true true false (fun _ => true))));
      [reflexivity | cbn; tauto].
  - apply (proj2 (ptau_ceremony_only_when_missing
                    (CompileCircuit.Env false false false (fun _ => true))));
      [reflexivity | reflexivity | cbn; tauto].
Defined.

Lemma demo_script_plan (e : Demo.env) :
  Demo.script e = run_plan (Demo.goes_on e) (Demo.plan e).
Proof.
  unfold Demo.script, Demo.plan.
  destruct (Demo.wasm_exists e), (Demo.deploy_exists e); reflexivity.
Qed.

Lemma demo_plan_throws (e : Demo.env) :
  Forall (fun step => snd step <> Exit 0) (Demo.plan e).
Proof.
  unfold Demo.plan.
  destruct (Demo.wasm_exists e), (Demo.deploy_exists e);
    repeat constructor; discriminate.
Qed.

Lemma demo_goes_on_critical (e : Demo.env) :
  (forall i, In i (map fst (Demo.plan e)) -> Demo.goes_on e i = true)
  <-> (forall o, In o (Demo.critical e) -> Demo.returns e o = true).
Proof.
  unfold Demo.plan, Demo.critical.
  destruct (Demo.wasm_exists e), (Demo.deploy_exists e); cbn [app map fst];
    (split;
     [ intros H o Hin; cbn [In] in Hin;
       repeat (destruct Hin as [<- | Hin];
               [match goal with
                | |- Demo.returns e ?o = true => apply (H (Demo.Did o))
                end; cbn [In]; tauto |]);
       contradiction
     | intros H i Hin; cbn [In] in Hin;
       repeat (destruct Hin as [<- | Hin];
               [cbn [Demo.goes_on]; try reflexivity; apply H; cbn [In]; tauto |]);
       contradiction ]).
Qed.

Lemma demo_run_exit0 (e : Demo.env) :
  snd (Demo.script e) = Exit 0
  <-> forall o, In o (Demo.critical e) -> Demo.returns e o = true.
Proof.
  rewrite <- demo_goes_on_critical, demo_script_plan.
  apply run_plan_exit0, demo_plan_throws.
Qed.

(** X20: the demo script never ends in an uncaught exception and never with
    a code other than 0 or 1; it exits with 0 exactly when every operation of
    steps 0 to 4 returns, whatever the verification prints and whether or not
    the write of the deployment script in step 5 succeeds. *)
Theorem demo_exits_0_iff (e : Demo.env) :
  (snd (Demo.script e) = Exit 0 \/ snd (Demo.script e) = Exit 1)
  /\ (snd (Demo.script e) = Exit 0
      <-> forall o, In o (Demo.critical e) -> Demo.returns e o = true).
Proof.
  split.
  - rewrite demo_script_plan.
    assert (Hend : forall plan : list (Demo.item * ending),
              Forall (fun step => snd step = Exit 1) plan ->
              snd (run_plan (Demo.goes_on e) plan) = Exit 0
              \/ snd (run_plan (Demo.goes_on e) plan) = Exit 1).
    { induction 1 as [| [o t] plan Ht _ IH]; [left; reflexivity |].
      cbn [run_plan]. unfold attempt.
      destruct (Demo.goes_on e o); cbn [snd] in *; tauto. }
    apply Hend. unfold Demo.plan.
    destruct (Demo.wasm_exists e), (Demo.deploy_exists e); cbn [app];
      repeat (constructor; [reflexivity |]); constructor.
  - apply demo_run_exit0.
Qed.

Lemma starts_with_iff (sub s : string) :
  starts_with sub s = true <-> exists post, s = sub ++ post.
Proof.
  revert s. induction sub as [| a sub IH]; intros s.
  - split; [intros _; exists s; reflexivity | reflexivity].
  - destruct s as [| b s]; cbn [starts_with].
    + split; [discriminate | intros [post H]; discriminate H].
    + rewrite andb_true_iff, Ascii.eqb_eq, IH. split.
      * intros [-> [post ->]]. exists post. reflexivity.
      * intros [post H]. cbn in H. injection H as -> ->. eauto.
Qed.

(** [includes] is containment as a substring. *)
Lemma includes_iff (s sub : string) :
  includes s sub = true <-> exists pre post, s = pre ++ sub ++ post.
Proof.
  induction s as [| c s IH]; cbn [includes].
  - rewrite orb_false_r, starts_with_iff. split.
    + intros [post H]. exists "", post. exact H.
    + intros (pre & post & H). destruct pre; [eauto | discriminate H].
  - rewrite orb_true_iff, starts_with_iff, IH. split.
    + intros [[post H] | (pre & post & H)].
      * exists "", post. exact H.
      * exists (String c pre), post. cbn. rewrite H. reflexivity.
    + intros (pre & post & H). destruct pre as [| c' pre].
      * left. exists post. exact H.
      * right. cbn in H. injection H as _ H. eauto.
Qed.

(** Walking down a script, outermost attempt first. *)
Ltac walk :=
  repeat match goal with
         | H : context [fst (attempt ?b _ _ _)] |- _ =>
             destruct b eqn:?; unfold attempt at 1 in H; cbn [fst snd] in H
         | H : context [snd (attempt ?b _ _ _)] |- _ =>
             destruct b eqn:?; unfold attempt at 1 in H; cbn [fst snd] in H
         end.

(** X21: the verdict the demo prints is decided by a substring test: the
    run reports a valid proof exactly when the output of the verify command
    contains the two characters OK somewhere.  A verdict is only printed
    after the verify command returned, and a negative verdict does not stop
    the script: the calldata export is attempted all the same. *)
Theorem demo_verdict (e : Demo.env) (valid : bool) :
  In (Demo.Verdict valid) (fst (Demo.script e)) ->
  (valid = true <-> exists pre post, Demo.verify_output e = pre ++ "OK" ++ post)
  /\ Demo.returns e Demo.Groth16Verify = true
  /\ In (Demo.Did Demo.ExportCalldata) (fst (Demo.script e)).
Proof.
  intros Hin. split.
  - rewrite demo_script_plan in Hin. apply run_plan_attempted in Hin.
    rewrite <- includes_iff.
    unfold Demo.plan in Hin.
    destruct (Demo.wasm_exists e), (Demo.deploy_exists e); cbn in Hin;
      repeat (destruct Hin as [Hin | Hin]; [try discriminate Hin |]);
      try contradiction;
      injection Hin as <-; reflexivity.
  - revert Hin. unfold Demo.script, say, attempt_soft.
    destruct (Demo.wasm_exists e), (Demo.deploy_exists e);
      cbv beta zeta; cbn [fst snd]; intros Hin; walk;
      cbn [In] in Hin;
      repeat (destruct Hin as [Hin | Hin]; [try discriminate Hin |]);
      try contradiction;
      unfold attempt; cbn [fst snd In]; tauto.
Qed.

(** The verdict theorem on an environment where everything exists and
    returns and the verify command prints a line that ends in NOT OK. *)
Lemma demo_verdict_witness :
  In (Demo.Verdict true)
     (fst (Demo.script
             (Demo.Env true true
                (CompileCircuit.Env true true true (fun _ => true))
                "proof is NOT OK" (fun _ => true))))
  /\ (true = true <-> exists pre post, "proof is NOT OK" = pre ++ "OK" ++ post).
Proof.
  assert (Hin : In (Demo.Verdict true)
                  (fst (Demo.script
                          (Demo.Env true true
                             (CompileCircuit.Env true true true (fun _ => true))
                             "proof is NOT OK" (fun _ => true))))).
  { cbn. tauto. }
  split; [exact Hin |].
  exact (proj1 (demo_verdict _ true Hin)).
Defined.

(** X22: the demo writes the deployment script only when no such file
    exists, and only at the end of a run whose steps 0 to 4 all returned: the
    write is attempted exactly when the file is missing and the script exits
    with 0. *)
Theorem demo_writes_deploy_iff (e : Demo.env) :
  In (Demo.Did Demo.WriteDeploy) (fst (Demo.script e))
  <-> Demo.deploy_exists e = false /\ snd (Demo.script e) = Exit 0.
Proof.
  split.
  - unfold Demo.script, say, attempt_soft.
    destruct (Demo.wasm_exists e), (Demo.deploy_exists e);
      cbv beta zeta; cbn [fst snd]; intros Hin; walk;
      cbn [In] in Hin;
      repeat (destruct Hin as [Hin | Hin]; [try discriminate Hin |]);
      try contradiction.
    all: split; [reflexivity |].
    all: unfold attempt;
      repeat match goal with H : ?b = true |- context [if ?b then _ else _] =>
               rewrite H; cbn [fst snd] end;
      reflexivity.
  - intros [Hex Hend].
    pose proof (proj2 (run_plan_exit0 (Demo.goes_on e) (Demo.plan e)
                         (demo_plan_throws e))) as Hall.
    rewrite <- demo_script_plan in Hall. rewrite (Hall Hend).
    unfold Demo.plan. rewrite Hex, !map_app, !in_app_iff.
    right. right. left. reflexivity.
Qed.

(** X23: when the compiled circuit is missing, the demo runs the compile
    script first and can only exit with 0 if that script exited with 0,
    having gone through its whole plan. *)
Theorem demo_needs_compile (e : Demo.env) :
  Demo.wasm_exists e = false ->
  snd (Demo.script e) = Exit 0 ->
  snd (CompileCircuit.script (Demo.compile_env e)) = Exit 0
  /\ fst (CompileCircuit.script (Demo.compile_env e))
     = map fst (CompileCircuit.plan (Demo.compile_env e)).
Proof.
  intros Hwasm Hend.
  assert (Hret : Demo.returns e Demo.RunCompile = true).
  { apply (proj1 (demo_run_exit0 e) Hend).
    unfold Demo.critical. rewrite Hwasm. left. reflexivity. }
  cbn [Demo.returns] in Hret.
  assert (Hc : snd (CompileCircuit.script (Demo.compile_env e)) = Exit 0).
  { destruct (snd (CompileCircuit.script (Demo.compile_env e))) as [[| n] |];
      [reflexivity | discriminate | discriminate]. }
  split; [exact Hc |].
  exact (proj2 (compile_run_exit0 (Demo.compile_env e)) Hc).
Qed.

(** The theorem on an environment where nothing exists yet and every
    operation returns. *)
Lemma demo_needs_compile_witness :
  Demo.wasm_exists
    (Demo.Env false false (CompileCircuit.Env false false false (fun _ => true))
       "OK" (fun _ => true)) = false
  /\ snd (Demo.script
            (Demo.Env false false
               (CompileCircuit.Env false false false (fun _ => true))
               "OK" (fun _ => true))) = Exit 0
  /\ snd (CompileCircuit.script
            (CompileCircuit.Env false false false (fun _ => true))) = Exit 0.
Proof.
  split; [reflexivity |]. split; [reflexivity |].
  exact (proj1 (demo_needs_compile
                  (Demo.Env false false
                     (CompileCircuit.Env false false false (fun _ => true))
                     "OK" (fun _ => true))
                  eq_refl eq_refl)).
Defined.

End ScriptFacts.
